(** * voxtranslate: room and presence lifecycle of [server.js]

    A shallow embedding of the relay server in [src/server.js]: the room
    store ([rooms], a JS [Map] from room codes to room objects), the
    socket handlers ([join-room], [heartbeat], [speech-data],
    [disconnect]), the two grace-period timers, the periodic room cleanup
    and the retrying [translateText].

    Conventions of the embedding.
    - Room objects are mutable and are captured by the timer closures, so
      they live in a [heap] addressed by reference; the [rooms] map holds
      references.  User objects are only ever read through their room's
      [users] array, except for [user.name] in the departure closure; a
      name is never assigned after creation, so the closure keeps the
      name itself.
    - [new Date()] reads the server's [clock], in milliseconds.
    - [setTimeout]/[setInterval] callbacks and the continuation of an
      [await] are entries of [timers], fired by [advance] in order of
      their due time (earliest first, scheduling order among equals).
    - [socket.emit], [io.to(code).emit] and [socket.to(code).emit] append
      to [outbox], with the recipients resolved when the emit happens.
    - [findIndex] returns [None] where JavaScript returns [-1].
    - Numbers are doubles.  Times are integers far below [2 ^ 53], where
      the arithmetic of doubles is exact; [generateRoomCode] computes
      with fractions, and rounds each result with [roundDouble].
    - A string stands for its UTF-8 encoding.
    - The Gemini model is an oracle: the replies to a call of
      [translateText] depend on the prompt the call sends.
    - Console logging is not modelled. *)

From Stdlib Require Import ZArith QArith Qround Qpower Lia Lqa Ascii String DecimalString DecimalZ.
From stdpp Require Import gmap strings list fin_maps.

Local Open Scope Z_scope.

(** ** Data model *)

(** The JSON values a request body can carry in [translationDirection],
    with [VUndefined] for an absent field. *)
Inductive Value :=
| VUndefined
| VNull
| VBool (b : bool)
| VNumber (n : Z)
| VString (s : string)
| VObject.

#[global] Instance Value_eq_dec : EqDecision Value.
Proof. solve_decision. Defined.

(** [{ id: socket.id, name: userName }] *)
Record User := mkUser { id : string; name : string }.

#[global] Instance User_eq_dec : EqDecision User.
Proof. solve_decision. Defined.

(** [{ translationDirection, users: [], createdAt, lastActivity }] *)
Record Room := mkRoom {
  translationDirection : Value;
  users : list User;
  createdAt : Z;
  lastActivity : Z
}.

(** References to room objects are positions in the heap. *)
Abbreviation Ref := nat (only parsing).

(** Events sent to clients. *)
Inductive Message :=
| error (message : string)
| room_joined (roomCode : string) (direction : Value) (members : list User)
| user_joined (userId userName : string) (members : list User)
| heartbeat_ack
| translated_speech (originalText translatedText userId : string)
| user_left (userId userName : string) (members : list User).

Record Emission := mkEmission { recipients : gset string; message : Message }.

(** Scheduled callbacks, each with the variables its closure captured. *)
Inductive Timer :=
| DepartureCheck (room : Ref) (currentRoom : string) (userIndex : nat)
                 (userName socketId : string)
| EmptyRoomCheck (currentRoom : string)
| Delivery (socketId roomCode text : string) (translatedText : option string)
| Sweep.

(** Per-connection state: the handler's [let currentRoom] and the
    socket.io rooms the socket has joined. *)
Record Socket := mkSocket { currentRoom : option string; joined : gset string }.

Record Server := mkServer {
  rooms : gmap string Ref;
  heap : list Room;
  sockets : gmap string Socket;
  timers : list (Z * Timer);
  outbox : list Emission;
  clock : Z
}.

Definition set_rooms (f : gmap string Ref -> gmap string Ref) (s : Server) : Server :=
  mkServer (f (rooms s)) (heap s) (sockets s) (timers s) (outbox s) (clock s).
Definition set_heap (f : list Room -> list Room) (s : Server) : Server :=
  mkServer (rooms s) (f (heap s)) (sockets s) (timers s) (outbox s) (clock s).
Definition set_sockets (f : gmap string Socket -> gmap string Socket) (s : Server) : Server :=
  mkServer (rooms s) (heap s) (f (sockets s)) (timers s) (outbox s) (clock s).
Definition set_timers (f : list (Z * Timer) -> list (Z * Timer)) (s : Server) : Server :=
  mkServer (rooms s) (heap s) (sockets s) (f (timers s)) (outbox s) (clock s).
Definition set_outbox (f : list Emission -> list Emission) (s : Server) : Server :=
  mkServer (rooms s) (heap s) (sockets s) (timers s) (f (outbox s)) (clock s).
Definition set_clock (t : Z) (s : Server) : Server :=
  mkServer (rooms s) (heap s) (sockets s) (timers s) (outbox s) t.

Definition set_users (us : list User) (r : Room) : Room :=
  mkRoom (translationDirection r) us (createdAt r) (lastActivity r).
Definition set_lastActivity (t : Z) (r : Room) : Room :=
  mkRoom (translationDirection r) (users r) (createdAt r) t.

(** [rooms.get(code)]: the room object stored under [code], if any. *)
Definition getRoom (s : Server) (code : string) : option (Ref * Room) :=
  match rooms s !! code with
  | Some ref => match heap s !! ref with
                | Some r => Some (ref, r)
                | None => None
                end
  | None => None
  end.

(** The sockets currently in socket.io room [code]. *)
Definition members (s : Server) (code : string) : gset string :=
  dom (filter (fun kv => code ∈ joined kv.2) (sockets s)).

Definition emit (to : gset string) (m : Message) (s : Server) : Server :=
  set_outbox (fun o => o ++ [mkEmission to m]) s.

(** [setTimeout(callback, delay)] *)
Definition schedule (delay : Z) (t : Timer) (s : Server) : Server :=
  set_timers (fun ts => ts ++ [(clock s + delay, t)]) s.

(** [Array.prototype.findIndex] *)
Fixpoint findIndex {A} (p : A -> bool) (l : list A) : option nat :=
  match l with
  | [] => None
  | x :: l' => if p x then Some 0%nat else S <$> findIndex p l'
  end.

(** ** HTTP endpoints *)

(** JavaScript numbers are IEEE 754 doubles: the result of every
    arithmetic operation is rounded to the nearest double, ties to the
    even significand.  Numbers are rationals here, and [roundDouble] is
    that rounding. *)

(** Round to the nearest integer, ties to even. *)
Definition roundTiesEven (x : Q) : Z :=
  let f := Qfloor x in
  match (x - inject_Z f ?= 1 # 2)%Q with
  | Lt => f
  | Gt => f + 1
  | Eq => if Z.even f then f else f + 1
  end.

(** The exponent [e] with [2 ^ e <= x < 2 ^ (e + 1)], for a positive [x]. *)
Definition binade (x : Q) : Z :=
  let e := Z.log2 (Qnum x) - Z.log2 (Z.pos (Qden x)) in
  if Qle_bool (2 ^ e) x then e else e - 1.

(** The distance between neighbouring doubles around a positive [x]:
    53 significant bits, and the fixed step [2 ^ -1074] below
    [2 ^ -1022]. *)
Definition ulp (x : Q) : Q := (2 ^ (Z.max (binade x) (-1022) - 52))%Q.

(** The double nearest to [x], for [x] below the overflow threshold. *)
Definition roundDouble (x : Q) : Q :=
  match (x ?= 0)%Q with
  | Eq => 0%Q
  | Gt => (inject_Z (roundTiesEven (x / ulp x)) * ulp x)%Q
  | Lt => (- (inject_Z (roundTiesEven (- x / ulp (- x))) * ulp (- x)))%Q
  end.

(** [Math.floor(100000 + Math.random() * 900000).toString()], with the
    random draw [rnd] (a double in [[0, 1)]) as an argument.  The product
    is rounded to a double, then the sum is; [Math.floor] of a double and
    the decimal string of an integer below [2 ^ 53] are exact. *)
Definition generateRoomCode (rnd : Q) : string :=
  NilZero.string_of_int
    (Z.to_int (Qfloor (roundDouble (100000 + roundDouble (rnd * 900000))%Q))).

(** [POST /api/create-room]: returns the new state and the [roomCode] of
    the response. *)
Definition createRoom (rnd : Q) (direction : Value) (s : Server) : Server * string :=
  let roomCode := generateRoomCode rnd in
  let ref := length (heap s) in
  let room := mkRoom direction [] (clock s) (clock s) in
  (set_rooms (insert roomCode ref) (set_heap (fun h => h ++ [room]) s), roomCode).

(** [GET /api/check-room/:roomCode]: the [exists] field of the response. *)
Definition checkRoom (roomCode : string) (s : Server) : bool :=
  bool_decide (is_Some (rooms s !! roomCode)).

(** ** Translation Gateway *)

(** One call of [model.generateContent(prompt)] followed by
    [result.response.text()]: it settles after [latency] milliseconds,
    either with the response text or by throwing an [Error] with the
    given [message]. *)
Inductive Outcome :=
| Resolved (responseText : string)
| Rejected (errorMessage : string).

Record Attempt := mkAttempt { latency : Z; outcome : Outcome }.

(** The remote model as the environment of one [translateText] call: the
    reply to its [n]-th request, counted from 0. *)
Definition Remote := nat -> Attempt.

(** What a call of [translateText] does besides computing its value. *)
Inductive Effect :=
| Generate (prompt : string)
| Sleep (ms : Z).

(** [Returned None] is a JavaScript [undefined] return value. *)
Inductive Completion :=
| Returned (v : option string)
| Unfinished.

Record Run := mkRun { completion : Completion; effects : list Effect; elapsed : Z }.

Definition after (e : list Effect) (d : Z) (r : Run) : Run :=
  mkRun (completion r) (e ++ effects r) (d + elapsed r).

(** [String.prototype.trim].  A string stands for its UTF-8 encoding,
    and [trim] strips the code points of WhiteSpace and LineTerminator
    from both ends: the one-byte ones of [isSpace] (tab, LF, VT, FF, CR,
    space), U+00A0 ([isSpace2]), and U+1680, U+2000 to U+200A, U+2028,
    U+2029, U+202F, U+205F, U+3000 and U+FEFF ([isSpace3]). *)
Definition isSpace (c : ascii) : bool :=
  let n := nat_of_ascii c in
  ((9 <=? n)%nat && (n <=? 13)%nat) || (n =? 32)%nat.

Definition isSpace2 (c1 c2 : ascii) : bool :=
  (nat_of_ascii c1 =? 194)%nat && (nat_of_ascii c2 =? 160)%nat.

Definition isSpace3 (c1 c2 c3 : ascii) : bool :=
  let a := nat_of_ascii c1 in
  let b := nat_of_ascii c2 in
  let c := nat_of_ascii c3 in
  ((a =? 225) && (b =? 154) && (c =? 128))%nat
  || ((a =? 226) && (b =? 128)
      && (((128 <=? c) && (c <=? 138)) || (c =? 168) || (c =? 169) || (c =? 175)))%nat
  || ((a =? 226) && (b =? 129) && (c =? 159))%nat
  || ((a =? 227) && (b =? 128) && (c =? 128))%nat
  || ((a =? 239) && (b =? 187) && (c =? 191))%nat.

Fixpoint trimStart (s : string) : string :=
  match s with
  | String c1 s1 =>
      if isSpace c1 then trimStart s1
      else
        match s1 with
        | String c2 s2 =>
            if isSpace2 c1 c2 then trimStart s2
            else
              match s2 with
              | String c3 s3 => if isSpace3 c1 c2 c3 then trimStart s3 else s
              | EmptyString => s
              end
        | EmptyString => s
        end
  | EmptyString => EmptyString
  end.

(** The string consists of white space only. *)
Fixpoint allSpace (s : string) : bool :=
  match s with
  | String c1 s1 =>
      if isSpace c1 then allSpace s1
      else
        match s1 with
        | String c2 s2 =>
            if isSpace2 c1 c2 then allSpace s2
            else
              match s2 with
              | String c3 s3 => if isSpace3 c1 c2 c3 then allSpace s3 else false
              | EmptyString => false
              end
        | EmptyString => false
        end
  | EmptyString => true
  end.

Fixpoint trimEnd (s : string) : string :=
  match s with
  | String c s' => if allSpace s then EmptyString else String c (trimEnd s')
  | EmptyString => EmptyString
  end.

Definition trim (s : string) : string := trimEnd (trimStart s).

Definition quote : string := String (ascii_of_nat 34) EmptyString.
Definition newline : string := String (ascii_of_nat 10) EmptyString.

(** The template literal of [translateText], line breaks and indentation
    included. *)
Definition prompt (text fromLang toLang : string) : string :=
  "Translate the following text from " +:+ fromLang +:+ " to " +:+ toLang +:+ ". "
  +:+ newline +:+ "      Return only the translated text without any explanations:"
  +:+ newline +:+ "      " +:+ quote +:+ text +:+ quote.

Definition maxRetries : nat := 3.

Definition unavailable (errorMessage : string) : string :=
  "[Translation unavailable: " +:+ errorMessage +:+ "]".

(** The [while (retries < maxRetries)] loop; [fuel] bounds the number of
    iterations. *)
Fixpoint translateLoop (remote : Remote) (text fromLang toLang : string)
    (fuel retries : nat) : Run :=
  match fuel with
  | O => mkRun Unfinished [] 0
  | S fuel' =>
      if (retries <? maxRetries)%nat then
        let reply := remote retries in
        after [Generate (prompt text fromLang toLang)] (latency reply)
          match outcome reply with
          | Resolved translation => mkRun (Returned (Some (trim translation))) [] 0
          | Rejected errorMessage =>
              let retries := S retries in
              if (maxRetries <=? retries)%nat
              then mkRun (Returned (Some (unavailable errorMessage))) [] 0
              else
                let delay := 1000 * Z.of_nat retries in
                after [Sleep delay] delay
                  (translateLoop remote text fromLang toLang fuel' retries)
          end
      else mkRun (Returned None) [] 0
  end.

Definition translateText (remote : Remote) (text fromLang toLang : string) : Run :=
  translateLoop remote text fromLang toLang maxRetries 0.

(** The remote model across calls: the replies it gives to a call of
    [translateText] depend on the prompt the call sends. *)
Definition Model := string -> Remote.

(** The prompts of the remote calls a run of [translateText] makes, in
    order. *)
Definition requests (r : Run) : list string :=
  omap (fun e => match e with Generate p => Some p | Sleep _ => None end) (effects r).

(** The number of remote calls a run of [translateText] makes. *)
Definition attempts (r : Run) : nat :=
  length (List.filter (fun e => match e with Generate _ => true | Sleep _ => false end)
                      (effects r)).

(** ** Socket handlers *)

(** [io.on('connection')]: a fresh handler closure with
    [currentRoom = null]. *)
Definition connection (socketId : string) (s : Server) : Server :=
  set_sockets (insert socketId (mkSocket None ∅)) s.

(** [socket.on('join-room')] *)
Definition joinRoom (socketId roomCode userName : string) (s : Server) : Server :=
  match getRoom s roomCode with
  | None => emit {[socketId]} (error "Room not found") s
  | Some (ref, room) =>
      let s1 :=
        set_sockets
          (alter (fun k => mkSocket (Some roomCode) ({[roomCode]} ∪ joined k)) socketId) s in
      let users' :=
        match findIndex (fun user => bool_decide (name user = userName)) (users room) with
        | Some existingUserIndex =>
            alter (fun user => mkUser socketId (name user)) existingUserIndex (users room)
        | None => users room ++ [mkUser socketId userName]
        end in
      let room' := set_lastActivity (clock s) (set_users users' room) in
      let s2 := set_heap (insert ref room') s1 in
      let s3 := emit {[socketId]} (room_joined roomCode (translationDirection room') users') s2 in
      emit (members s3 roomCode) (user_joined socketId userName users') s3
  end.

(** [socket.on('heartbeat')] *)
Definition heartbeat (socketId roomCode : string) (s : Server) : Server :=
  match getRoom s roomCode with
  | Some (ref, room) =>
      emit {[socketId]} heartbeat_ack
        (set_heap (insert ref (set_lastActivity (clock s) room)) s)
  | None => s
  end.

(** [socket.on('speech-data')], up to the [await]: the rest of the
    handler runs as a [Delivery] once [translateText] has settled.
    [translateText] gets the replies the model gives to the prompt it
    sends. *)
Definition speechData (model : Model) (socketId roomCode text : string)
    (s : Server) : Server :=
  match getRoom s roomCode with
  | None => emit {[socketId]} (error "Room not found") s
  | Some (ref, room) =>
      let s1 := set_heap (insert ref (set_lastActivity (clock s) room)) s in
      let '(fromLang, toLang) :=
        if decide (translationDirection room = VString "en-to-hi")
        then ("English", "Hindi")
        else ("Hindi", "English") in
      let run :=
        translateText (model (prompt text fromLang toLang)) text fromLang toLang in
      match completion run with
      | Returned translatedText =>
          schedule (elapsed run) (Delivery socketId roomCode text translatedText) s1
      | Unfinished => s1
      end
  end.

(** The [try] block of [speech-data] after the [await]: taking
    [substring] of an [undefined] translation throws, and the [catch]
    reports to the sender. *)
Definition deliver (socketId roomCode text : string) (translatedText : option string)
    (s : Server) : Server :=
  match translatedText with
  | Some translated =>
      emit (members s roomCode ∖ {[socketId]}) (translated_speech text translated socketId) s
  | None => emit {[socketId]} (error "Translation failed. Please try again.") s
  end.

(** [socket.on('disconnect')]: socket.io has already removed the socket
    from its rooms when the handler runs. *)
Definition disconnect (socketId : string) (s : Server) : Server :=
  match sockets s !! socketId with
  | None => s
  | Some sock =>
      let s1 := set_sockets (delete socketId) s in
      match currentRoom sock with
      | None => s1
      | Some code =>
          match getRoom s1 code with
          | None => s1
          | Some (ref, room) =>
              match findIndex (fun user => bool_decide (id user = socketId)) (users room) with
              | None => s1
              | Some userIndex =>
                  match users room !! userIndex with
                  | Some user =>
                      schedule 20000 (DepartureCheck ref code userIndex (name user) socketId) s1
                  | None => s1
                  end
              end
          end
      end
  end.

(** ** Timer callbacks *)

(** [room.users.some(u => u.name === user.name && u.id !== socket.id)] *)
Definition reconnected (userName socketId : string) (us : list User) : bool :=
  existsb (fun u => bool_decide (name u = userName)
                    && negb (bool_decide (id u = socketId))) us.

(** The callback of the 20 second [setTimeout] in the disconnect
    handler.  [room], [userIndex], the user's name and the socket id are
    the values captured when the timer was set. *)
Definition departureCheck (room : Ref) (code : string) (userIndex : nat)
    (userName socketId : string) (s : Server) : Server :=
  match heap s !! room with
  | None => s
  | Some r =>
      if reconnected userName socketId (users r) then s
      else
        let users' := delete userIndex (users r) in
        let s1 := set_heap (insert room (set_users users' r)) s in
        let s2 := emit (members s1 code) (user_left socketId userName users') s1 in
        if (length users' =? 0)%nat
        then schedule 300000 (EmptyRoomCheck code) s2
        else s2
  end.

(** The callback of the 5 minute [setTimeout]:
    [if (rooms.get(currentRoom)?.users.length === 0) rooms.delete(currentRoom)]. *)
Definition emptyRoomCheck (code : string) (s : Server) : Server :=
  match getRoom s code with
  | Some (_, r) =>
      if (length (users r) =? 0)%nat then set_rooms (delete code) s else s
  | None => s
  end.

(** One iteration of the cleanup loop, on the entry [(roomCode, ref)]. *)
Definition sweepEntry (now : Z) (h : list Room) (m : gmap string Ref)
    (entry : string * Ref) : gmap string Ref :=
  match h !! entry.2 with
  | Some room =>
      let inactiveTime := now - lastActivity room in
      if (3600000 <? inactiveTime) && (length (users room) =? 0)%nat
      then delete entry.1 m
      else m
  | None => m
  end.

(** The callback of the 30 minute [setInterval].  The loop visits the
    entries the map had when it started; an iteration only ever deletes
    its own key, so the order of the visit does not matter. *)
Definition sweep (s : Server) : Server :=
  set_rooms (fun m => foldl (sweepEntry (clock s) (heap s)) m (map_to_list m)) s.

Definition fire (t : Timer) (s : Server) : Server :=
  match t with
  | DepartureCheck room code userIndex userName socketId =>
      departureCheck room code userIndex userName socketId s
  | EmptyRoomCheck code => emptyRoomCheck code s
  | Delivery socketId roomCode text translatedText =>
      deliver socketId roomCode text translatedText s
  | Sweep => schedule 1800000 Sweep (sweep s)
  end.

(** ** Event loop *)

(** The pending timer that fires next: the earliest due, the first
    scheduled among equals. *)
Fixpoint earliest (ts : list (Z * Timer)) : option (nat * (Z * Timer)) :=
  match ts with
  | [] => None
  | t :: ts' =>
      match earliest ts' with
      | Some (i, t') => if t'.1 <? t.1 then Some (S i, t') else Some (0%nat, t)
      | None => Some (0%nat, t)
      end
  end.

(** Fire the timers that are due by [now], at most [fuel] of them. *)
Fixpoint advance (fuel : nat) (now : Z) (s : Server) : Server :=
  match fuel with
  | O => s
  | S fuel' =>
      match earliest (timers s) with
      | Some (i, (due, t)) =>
          if due <=? now
          then advance fuel' now
                 (fire t (set_clock (Z.max (clock s) due) (set_timers (delete i) s)))
          else s
      | None => s
      end
  end.

(** An upper bound on the number of timers [advance] fires up to [now]:
    a departure check may set one more timer, the sweep re-arms itself
    every 30 minutes. *)
Definition work (now : Z) (t : Z * Timer) : nat :=
  if t.1 <=? now then
    match t.2 with
    | DepartureCheck _ _ _ _ _ => 2
    | EmptyRoomCheck _ => 1
    | Delivery _ _ _ _ => 1
    | Sweep => S (Z.to_nat ((now - t.1) / 1800000))
    end
  else 0.

Definition pendingWork (now : Z) (ts : list (Z * Timer)) : nat :=
  foldr (fun t n => (work now t + n)%nat) 0%nat ts.

Definition runUntil (now : Z) (s : Server) : Server :=
  let s' := advance (pendingWork now (timers s)) now s in
  set_clock (Z.max (clock s') now) s'.

(** Requests and socket events, as the server receives them. *)
Inductive Input :=
| PostCreateRoom (rnd : Q) (direction : Value)
| GetCheckRoom (roomCode : string)
| Connection (socketId : string)
| JoinRoom (socketId roomCode userName : string)
| Heartbeat (socketId roomCode : string)
| SpeechData (model : Model) (socketId roomCode text : string)
| Disconnect (socketId : string).

Inductive Response :=
| RoomCode (roomCode : string)
| Exists (b : bool).

(** Socket events only reach the handlers of a connected socket. *)
Definition connected (socketId : string) (s : Server) : bool :=
  bool_decide (is_Some (sockets s !! socketId)).

Definition handle (i : Input) (s : Server) : Server * option Response :=
  match i with
  | PostCreateRoom rnd direction =>
      let '(s', code) := createRoom rnd direction s in (s', Some (RoomCode code))
  | GetCheckRoom roomCode => (s, Some (Exists (checkRoom roomCode s)))
  | Connection socketId =>
      (if connected socketId s then s else connection socketId s, None)
  | JoinRoom socketId roomCode userName =>
      (if connected socketId s then joinRoom socketId roomCode userName s else s, None)
  | Heartbeat socketId roomCode =>
      (if connected socketId s then heartbeat socketId roomCode s else s, None)
  | SpeechData model socketId roomCode text =>
      (if connected socketId s then speechData model socketId roomCode text s else s, None)
  | Disconnect socketId => (disconnect socketId s, None)
  end.

(** The server on a timed trace of inputs: before an input that arrives
    at time [t], the timers due by [t] fire. *)
Fixpoint run (trace : list (Z * Input)) (s : Server) : Server * list Response :=
  match trace with
  | [] => (s, [])
  | (t, i) :: trace' =>
      let '(s1, r) := handle i (runUntil t s) in
      let '(s2, rs) := run trace' s1 in
      (s2, match r with Some x => x :: rs | None => rs end)
  end.

(** The server at start-up: an empty room store and the cleanup
    interval armed. *)
Definition initial : Server :=
  mkServer ∅ [] ∅ [(1800000, Sweep)] [] 0.

(** ** Invariants *)

(** A store and heap that fit together: every stored reference points
    into the heap, no room object is stored under two codes, and no
    room lists a name twice. *)
Definition storeOk (m : gmap string Ref) (h : list Room) : Prop :=
  (forall code ref, m !! code = Some ref -> (ref < length h)%nat) /\
  (forall c1 c2 ref, m !! c1 = Some ref -> m !! c2 = Some ref -> c1 = c2) /\
  Forall (fun r => NoDup (name <$> users r)) h.

Definition wellFormed (s : Server) : Prop := storeOk (rooms s) (heap s).



(** ** Sample runs *)

(** The [user-left] events among the emitted messages, in order. *)
Definition departures (s : Server) : list Message :=
  List.filter (fun m => match m with user_left _ _ _ => true | _ => false end)
              (message <$> outbox s).

(** A room is created (the draw 1/2 gives code 550000) and three
    sockets join it as A, B and C. *)
Definition lobby : list (Z * Input) :=
  [ (0, PostCreateRoom (1 # 2) (VString "en-to-hi"));
    (100, Connection "s1"); (200, Connection "s2"); (300, Connection "s3");
    (1000, JoinRoom "s1" "550000" "A");
    (2000, JoinRoom "s2" "550000" "B");
    (3000, JoinRoom "s3" "550000" "C") ].

Definition lobbyServer : Server := (run lobby initial).1.

Definition lobbyRoom : Room :=
  mkRoom (VString "en-to-hi") [mkUser "s1" "A"; mkUser "s2" "B"; mkUser "s3" "C"] 0 3000.

(** A and B lose their connections one second apart and stay away; C
    stays connected.  The last request only moves the clock past both
    departure checks. *)
Definition twoDepartures : list (Z * Input) :=
  lobby ++
  [ (10000, Disconnect "s1");
    (11000, Disconnect "s2");
    (40000, GetCheckRoom "550000") ].

(** A, B and C lose their connections one second apart; C is back one
    second later on a new socket [s4]; A and B stay away. *)
Definition quickRejoin : list (Z * Input) :=
  lobby ++
  [ (10000, Disconnect "s1");
    (11000, Disconnect "s2");
    (12000, Disconnect "s3");
    (12500, Connection "s4");
    (13000, JoinRoom "s4" "550000" "C");
    (40000, GetCheckRoom "550000") ].

(** One user joins and loses the connection. *)
Definition soloApproach : list (Z * Input) :=
  [ (0, PostCreateRoom (1 # 2) (VString "en-to-hi"));
    (100, Connection "s1");
    (1000, JoinRoom "s1" "550000" "A");
    (5000, Disconnect "s1") ].

(** The user stays away; the last request moves the clock to the time
    of the departure check. *)
Definition soloDeparture : list (Z * Input) :=
  soloApproach ++ [ (25000, GetCheckRoom "550000") ].

(** A remote model that answers every request after 200 ms. *)
Definition answering (responseText : string) : Remote :=
  fun _ => mkAttempt 200 (Resolved responseText).

(** A remote model that rejects every request after 200 ms. *)
Definition failing (errorMessage : string) : Remote :=
  fun _ => mkAttempt 200 (Rejected errorMessage).

(** A remote model that rejects the first request and then answers
    "namaste" between a no-break space (U+00A0) and an ideographic space
    (U+3000), both in UTF-8. *)
Definition noBreakSpace : string :=
  String (ascii_of_nat 194) (String (ascii_of_nat 160) EmptyString).

Definition ideographicSpace : string :=
  String (ascii_of_nat 227) (String (ascii_of_nat 128) (String (ascii_of_nat 128) EmptyString)).

Definition busyOnce : Remote :=
  fun n =>
    if (n =? 0)%nat then mkAttempt 40 (Rejected "busy")
    else mkAttempt 60 (Resolved (noBreakSpace +:+ "namaste" +:+ ideographicSpace)).

(** A model that knows two phrases, each in one direction, and rejects
    every other prompt. *)
Definition dictionary : Model :=
  fun p _ =>
    if bool_decide (p = prompt "Hello" "English" "Hindi")
    then mkAttempt 200 (Resolved " namaste ")
    else if bool_decide (p = prompt "namaste" "Hindi" "English")
    then mkAttempt 200 (Resolved "hello")
    else mkAttempt 200 (Rejected "unknown phrase").

(** A speaks twice in the lobby: the first translation succeeds, the
    second exhausts its retries. *)
Definition relay : list (Z * Input) :=
  lobby ++
  [ (5000, SpeechData dictionary "s1" "550000" "Hello");
    (6000, SpeechData (fun _ => failing "quota exceeded") "s1" "550000" "Bye");
    (20000, GetCheckRoom "550000") ].

(** The [translated-speech] events among the emissions, each with its
    recipients in a list. *)
Definition relayed (s : Server) : list (list string * Message) :=
  (fun e => (elements (recipients e), message e)) <$>
  List.filter (fun e => match message e with
                        | translated_speech _ _ _ => true
                        | _ => false
                        end) (outbox s).


(** The server of [soloApproach] at 25000 ms, when the event loop has
    taken the departure check off the timer list and is about to call
    it. *)
Definition lastUserGone : Server :=
  set_clock 25000 (set_timers (delete 1%nat) (run soloApproach initial).1).

(** A store with one room left idle and empty and one room in use, 70
    minutes after the last activity in the first. *)
Definition idleAndBusy : Server :=
  mkServer {["111111" := 0%nat; "222222" := 1%nat]}
    [mkRoom (VString "en-to-hi") [] 0 0;
     mkRoom (VString "hi-to-en") [mkUser "s9" "Z"] 0 0] ∅
    [] [] 4200000.

(** ** Measures used in the further properties *)

(** The time a run of [translateText] spends in its back-off waits. *)
Definition waited (r : Run) : Z :=
  foldr (fun e acc => match e with Sleep ms => ms + acc | Generate _ => acc end) 0
        (effects r).

(** The time the remote model takes for the first [n] requests. *)
Definition remoteTime (remote : Remote) (n : nat) : Z :=
  foldr Z.add 0 ((fun k => latency (remote k)) <$> seq 0 n).

Definition startsWithSpace (s : string) : bool :=
  match s with
  | String c _ => isSpace c
  | EmptyString => false
  end.

Fixpoint endsWithSpace (s : string) : bool :=
  match s with
  | EmptyString => false
  | String c EmptyString => isSpace c
  | String _ s' => endsWithSpace s'
  end.

(** The decimal digit [k] put in front of the digits [l]. *)
Definition digit (k : Z) (l : Decimal.uint) : Decimal.uint :=
  match k with
  | 0 => Decimal.D0 l | 1 => Decimal.D1 l | 2 => Decimal.D2 l | 3 => Decimal.D3 l
  | 4 => Decimal.D4 l | 5 => Decimal.D5 l | 6 => Decimal.D6 l | 7 => Decimal.D7 l
  | 8 => Decimal.D8 l | _ => Decimal.D9 l
  end.

(** The six decimal digits of [n], most significant first. *)
Definition sixDigits (n : Z) : Decimal.uint :=
  digit (n / 100000) (digit (n / 10000 mod 10) (digit (n / 1000 mod 10)
    (digit (n / 100 mod 10) (digit (n / 10 mod 10) (digit (n mod 10) Decimal.Nil))))).

(** The number a string of decimal digits [l] denotes when the digits
    read so far denote [acc]. *)
Fixpoint valueOf (l : Decimal.uint) (acc : Z) : Z :=
  match l with
  | Decimal.Nil => acc
  | Decimal.D0 l => valueOf l (10 * acc)
  | Decimal.D1 l => valueOf l (10 * acc + 1)
  | Decimal.D2 l => valueOf l (10 * acc + 2)
  | Decimal.D3 l => valueOf l (10 * acc + 3)
  | Decimal.D4 l => valueOf l (10 * acc + 4)
  | Decimal.D5 l => valueOf l (10 * acc + 5)
  | Decimal.D6 l => valueOf l (10 * acc + 6)
  | Decimal.D7 l => valueOf l (10 * acc + 7)
  | Decimal.D8 l => valueOf l (10 * acc + 8)
  | Decimal.D9 l => valueOf l (10 * acc + 9)
  end.

(** * Properties *)

(** ** Arrays *)

Section FindIndex.
Context {A : Type} (p : A -> bool).

Lemma findIndex_Some (l : list A) (i : nat) :
  findIndex p l = Some i ->
  exists x, l !! i = Some x /\ p x = true /\
            forall j y, (j < i)%nat -> l !! j = Some y -> p y = false.
Proof.
  revert i. induction l as [|a l IH]; intros i; simpl; [discriminate|].
  destruct (p a) eqn:Hpa.
  - intros [= <-]. exists a. repeat split; auto. intros j y Hj. lia.
  - destruct (findIndex p l) as [k|]; simpl; [|discriminate].
    intros [= <-]. destruct (IH k eq_refl) as (x & Hx & Hpx & Hlt).
    exists x. repeat split; auto.
    intros [|j] y Hj; simpl.
    + intros [= <-]. exact Hpa.
    + apply Hlt. lia.
Qed.

Lemma findIndex_None (l : list A) :
  findIndex p l = None <-> forall x, x ∈ l -> p x = false.
Proof.
  induction l as [|a l IH]; simpl.
  - split; [|done]. intros _ x Hx. inversion Hx.
  - destruct (p a) eqn:Hpa.
    + split; [discriminate|]. intros H.
      rewrite (H a) in Hpa; [discriminate | left].
    + destruct (findIndex p l); simpl.
      * split; [discriminate|]. intros H.
        assert (Some n = None :> option nat); [|discriminate].
        apply IH. intros x Hx. apply H. by right.
      * split; [|done]. intros _ x Hx.
        inversion Hx; subst; [done|]. by apply IH.
Qed.

Lemma existsb_false (l : list A) :
  existsb p l = false <-> forall x, x ∈ l -> p x = false.
Proof.
  induction l as [|a l IH]; simpl.
  - split; [|done]. intros _ x Hx. inversion Hx.
  - rewrite orb_false_iff, IH. split.
    + intros [Ha Hl] x Hx. inversion Hx; subst; auto.
    + intros H. split; [apply H; left | intros x Hx; apply H; by right].
Qed.
End FindIndex.

Lemma alter_as_insert {A} (f : A -> A) (l : list A) (i : nat) (x : A) :
  l !! i = Some x -> alter f i l = <[i := f x]> l.
Proof.
  revert i. induction l as [|a l IH]; intros [|i]; simpl; try discriminate.
  - by intros [= ->].
  - intros H. f_equal. by apply IH.
Qed.

(** Overwriting the id of an entry leaves the names as they are. *)
Lemma names_alter_id (socketId : string) (l : list User) (i : nat) :
  name <$> alter (fun user => mkUser socketId (name user)) i l = name <$> l.
Proof.
  revert i. induction l as [|a l IH]; intros [|i]; simpl; auto.
  f_equal. apply IH.
Qed.

Lemma names_delete (l : list User) (i : nat) :
  name <$> delete i l = delete i (name <$> l).
Proof.
  revert i. induction l as [|a l IH]; intros [|i]; simpl; auto.
  f_equal. apply IH.
Qed.

Lemma NoDup_delete {A} (l : list A) (i : nat) : NoDup l -> NoDup (delete i l).
Proof. intros H. eapply sublist_NoDup; [exact H | apply sublist_delete]. Qed.

(** In a list without duplicates, deleting a position removes the
    element that was there. *)
Lemma NoDup_delete_not_elem {A} (l : list A) (i : nat) (x : A) :
  NoDup l -> l !! i = Some x -> x ∉ delete i l.
Proof.
  intros Hnd Hi Hin.
  pose proof (delete_Permutation l i x Hi) as Hp.
  rewrite Hp in Hnd. apply NoDup_cons in Hnd as [Hx _]. by apply Hx.
Qed.

(** ** The room store *)

Lemma getRoom_Some (s : Server) (code : string) (ref : Ref) (room : Room) :
  getRoom s code = Some (ref, room) <->
  rooms s !! code = Some ref /\ heap s !! ref = Some room.
Proof.
  unfold getRoom. destruct (rooms s !! code) as [r|]; [|split; [done | by intros [? _]]].
  destruct (heap s !! r) as [x|] eqn:Hx.
  - split; [by intros [= <- <-] | intros [[= <-] H]; congruence].
  - split; [done | intros [[= <-] H]; congruence].
Qed.

Lemma checkRoom_true (code : string) (s : Server) :
  checkRoom code s = true <-> is_Some (rooms s !! code).
Proof. unfold checkRoom. apply bool_decide_eq_true. Qed.

Lemma checkRoom_false (code : string) (s : Server) :
  checkRoom code s = false <-> rooms s !! code = None.
Proof.
  unfold checkRoom. rewrite bool_decide_eq_false. split.
  - intros H. destruct (rooms s !! code) eqn:E; [|done]. destruct H; eauto.
  - intros -> [x Hx]. discriminate.
Qed.

(** ** Translation Gateway *)

(** [translateText] always returns, and always a string: the loop never
    falls through to an [undefined] result. *)
Lemma translateText_returns (remote : Remote) (text fromLang toLang : string) :
  exists translated,
    completion (translateText remote text fromLang toLang) = Returned (Some translated).
Proof.
  unfold translateText. cbn.
  destruct (outcome (remote 0%nat)); cbn; [eauto|].
  destruct (outcome (remote 1%nat)); cbn; [eauto|].
  destruct (outcome (remote 2%nat)); cbn; eauto.
Qed.

(** More fuel than [maxRetries] changes nothing: the loop has ended by
    then. *)
Lemma translateLoop_fuel (remote : Remote) (text fromLang toLang : string)
    (fuel : nat) :
  (maxRetries <= fuel)%nat ->
  translateLoop remote text fromLang toLang fuel 0 =
  translateText remote text fromLang toLang.
Proof.
  unfold translateText, maxRetries. intros H.
  destruct fuel as [|[|[|fuel]]]; try lia. cbn.
  destruct (outcome (remote 0%nat)); cbn; [done|].
  destruct (outcome (remote 1%nat)); cbn; [done|].
  destruct (outcome (remote 2%nat)); cbn; done.
Qed.

(** C2. When the remote call fails on every attempt, [translateText]
    makes exactly three requests, waits 1000 ms after the first failure
    and 2000 ms after the second, and then returns the placeholder
    string built from the message of the last error; it returns a value
    (no exception, no endless loop). *)
Theorem translateText_all_attempts_fail
    (remote : Remote) (text fromLang toLang : string) :
  (forall n, exists errorMessage, outcome (remote n) = Rejected errorMessage) ->
  exists lastError,
    outcome (remote 2%nat) = Rejected lastError /\
    completion (translateText remote text fromLang toLang)
      = Returned (Some ("[Translation unavailable: " +:+ lastError +:+ "]")) /\
    effects (translateText remote text fromLang toLang)
      = [Generate (prompt text fromLang toLang); Sleep 1000;
         Generate (prompt text fromLang toLang); Sleep 2000;
         Generate (prompt text fromLang toLang)] /\
    attempts (translateText remote text fromLang toLang) = 3%nat.
Proof.
  intros Hfail.
  destruct (Hfail 0%nat) as [m0 H0], (Hfail 1%nat) as [m1 H1], (Hfail 2%nat) as [m2 H2].
  exists m2. split; [exact H2|].
  unfold translateText, attempts. cbn. rewrite H0. cbn. rewrite H1. cbn. rewrite H2. cbn.
  repeat split; reflexivity.
Qed.

Lemma translateText_all_attempts_fail_witness :
  exists lastError,
    outcome (mkAttempt 40 (Rejected "quota exceeded")) = Rejected lastError /\
    completion (translateText (fun _ => mkAttempt 40 (Rejected "quota exceeded"))
                  "Hello" "English" "Hindi")
      = Returned (Some ("[Translation unavailable: " +:+ lastError +:+ "]")) /\
    effects (translateText (fun _ => mkAttempt 40 (Rejected "quota exceeded"))
               "Hello" "English" "Hindi")
      = [Generate (prompt "Hello" "English" "Hindi"); Sleep 1000;
         Generate (prompt "Hello" "English" "Hindi"); Sleep 2000;
         Generate (prompt "Hello" "English" "Hindi")] /\
    attempts (translateText (fun _ => mkAttempt 40 (Rejected "quota exceeded"))
                "Hello" "English" "Hindi") = 3%nat.
Proof.
  apply (translateText_all_attempts_fail
           (fun _ => mkAttempt 40 (Rejected "quota exceeded")) "Hello" "English" "Hindi").
  intros n. exists "quota exceeded". reflexivity.
Defined.

(** ** Joining *)

Lemma heap_insert_lookup (h : list Room) (ref : Ref) (old new : Room) :
  h !! ref = Some old -> <[ref := new]> h !! ref = Some new.
Proof. intros H. apply list_lookup_insert_eq. by eapply lookup_lt_Some. Qed.

(** The room object that [join-room] leaves under [roomCode]. *)
Lemma joinRoom_getRoom (socketId roomCode userName : string) (s : Server)
    (ref : Ref) (room : Room) :
  getRoom s roomCode = Some (ref, room) ->
  getRoom (joinRoom socketId roomCode userName s) roomCode =
  Some (ref,
        mkRoom (translationDirection room)
          match findIndex (fun user => bool_decide (name user = userName)) (users room) with
          | Some i => alter (fun user => mkUser socketId (name user)) i (users room)
          | None => users room ++ [mkUser socketId userName]
          end
          (createdAt room) (clock s)).
Proof.
  intros Hget. unfold joinRoom. rewrite Hget.
  apply getRoom_Some in Hget as [Hcode Href].
  apply getRoom_Some. cbn. split; [exact Hcode|].
  eapply heap_insert_lookup. exact Href.
Qed.

(** C3. [join-room] on an existing room: a [userName] that already has
    an entry gets that entry's id overwritten with the new socket id and
    the number of users stays the same; a [userName] without an entry is
    appended as one new entry.  Either way [lastActivity] becomes the
    current time, and a list without duplicate names stays so. *)
Theorem joinRoom_existing_room (socketId roomCode userName : string) (s : Server)
    (ref : Ref) (room : Room) :
  getRoom s roomCode = Some (ref, room) ->
  exists room',
    getRoom (joinRoom socketId roomCode userName s) roomCode = Some (ref, room') /\
    lastActivity room' = clock s /\
    (userName ∈ name <$> users room ->
       exists i old,
         users room !! i = Some old /\ name old = userName /\
         users room' = <[i := mkUser socketId userName]> (users room) /\
         length (users room') = length (users room)) /\
    (userName ∉ name <$> users room ->
       users room' = users room ++ [mkUser socketId userName] /\
       length (users room') = S (length (users room))) /\
    (NoDup (name <$> users room) -> NoDup (name <$> users room')).
Proof.
  intros Hget. eexists. split; [by apply joinRoom_getRoom|]. cbn.
  split; [reflexivity|].
  destruct (findIndex _ (users room)) as [i|] eqn:Hfind.
  - apply findIndex_Some in Hfind as (old & Hold & Hname & _).
    apply bool_decide_eq_true in Hname.
    assert (Hin : userName ∈ name <$> users room).
    { rewrite <- Hname. apply list_elem_of_fmap. exists old. split; [done|].
      apply list_elem_of_lookup. eauto. }
    split; [|split].
    + intros _. exists i, old. repeat split; auto.
      * rewrite (alter_as_insert _ _ _ _ Hold). by rewrite Hname.
      * apply length_alter.
    + intros Hnot. by destruct Hnot.
    + by rewrite names_alter_id.
  - assert (Hfresh : userName ∉ name <$> users room).
    { intros Hin. apply list_elem_of_fmap in Hin as (u & -> & Hu).
      pose proof (proj1 (findIndex_None _ _) Hfind u Hu) as Hfalse.
      apply bool_decide_eq_false in Hfalse. by apply Hfalse. }
    split; [|split].
    + intros Hin. by destruct Hfresh.
    + intros _. split; [reflexivity|]. rewrite length_app. cbn. lia.
    + intros Hnd. rewrite fmap_app. cbn. apply NoDup_app.
      repeat split; [done | | apply NoDup_singleton].
      intros x Hx Hx'. apply list_elem_of_singleton in Hx'. by subst.
Qed.

Lemma joinRoom_existing_room_witness :
  exists room',
    getRoom (joinRoom "s4" "550000" "B" lobbyServer) "550000" = Some (0%nat, room') /\
    lastActivity room' = 3000 /\
    users room' = [mkUser "s1" "A"; mkUser "s4" "B"; mkUser "s3" "C"].
Proof.
  destruct (joinRoom_existing_room "s4" "550000" "B" lobbyServer 0%nat lobbyRoom)
    as (room' & Hget & Hact & Hin & _); [vm_compute; reflexivity|].
  exists room'. split; [exact Hget|]. split; [exact Hact|].
  destruct Hin as (i & old & Hold & Hname & Husers & _).
  { apply (list_elem_of_fmap_2 name _ (mkUser "s2" "B")).
    apply list_elem_of_lookup. by exists 1%nat. }
  rewrite Husers. destruct i as [|[|[|i]]]; cbn in Hold.
  - injection Hold as <-. discriminate.
  - reflexivity.
  - injection Hold as <-. discriminate.
  - discriminate.
Defined.

(** ** The periodic cleanup *)

Section Sweep.
Variables (now : Z) (h : list Room).

(** The loop only deletes: a key is afterwards either gone or bound
    as before. *)
Lemma foldl_sweepEntry_shrinks (l : list (string * Ref)) (m : gmap string Ref)
    (code : string) :
  foldl (sweepEntry now h) m l !! code = None \/
  foldl (sweepEntry now h) m l !! code = m !! code.
Proof.
  revert m. induction l as [|e l IH]; intros m; cbn; [by right|].
  destruct (IH (sweepEntry now h m e)) as [H|H]; [by left|].
  rewrite H. unfold sweepEntry.
  destruct (h !! e.2) as [room|]; [|by right].
  destruct (_ && _); [|by right].
  destruct (decide (e.1 = code)) as [->|Hne].
  - left. apply lookup_delete_eq.
  - right. by apply lookup_delete_ne.
Qed.

Lemma foldl_sweepEntry_deleted (l : list (string * Ref)) (m : gmap string Ref)
    (code : string) (ref : Ref) (room : Room) :
  (code, ref) ∈ l -> h !! ref = Some room ->
  3600000 < now - lastActivity room -> users room = [] ->
  foldl (sweepEntry now h) m l !! code = None.
Proof.
  intros Hin Href Hidle Hempty. revert m.
  induction l as [|e l IH]; intros m; [inversion Hin|]. cbn.
  apply elem_of_cons in Hin as [Heq|Hin]; [subst e|by apply IH].
  destruct (foldl_sweepEntry_shrinks l (sweepEntry now h m (code, ref)) code)
    as [H|H]; [exact H|].
  rewrite H. unfold sweepEntry. cbn. rewrite Href, Hempty. cbn.
  assert ((3600000 <? now - lastActivity room) = true) as -> by (apply Z.ltb_lt; lia).
  cbn. apply lookup_delete_eq.
Qed.

Lemma foldl_sweepEntry_kept (l : list (string * Ref)) (m : gmap string Ref)
    (code : string) :
  (forall ref room, (code, ref) ∈ l -> h !! ref = Some room ->
                    ~ (3600000 < now - lastActivity room /\ users room = [])) ->
  foldl (sweepEntry now h) m l !! code = m !! code.
Proof.
  revert m. induction l as [|e l IH]; intros m Hkeep; cbn; [done|].
  rewrite IH by (intros ref room Hin; apply Hkeep; by right).
  unfold sweepEntry. destruct (h !! e.2) as [room|] eqn:Href; [|done].
  destruct (3600000 <? now - lastActivity room) eqn:Hidle; [|done].
  destruct (length (users room) =? 0)%nat eqn:Hlen; [|done]. cbn.
  destruct (decide (e.1 = code)) as [Heq|Hne]; [|by apply lookup_delete_ne].
  exfalso. apply (Hkeep e.2 room); [|exact Href|].
  - rewrite <- Heq. destruct e. left.
  - split; [by apply Z.ltb_lt|].
    apply Nat.eqb_eq in Hlen. by apply nil_length_inv.
Qed.
End Sweep.

(** C7. One run of the cleanup interval deletes exactly the rooms that
    have been idle for more than one hour ([now - lastActivity >
    3600000]) and have no users; a room with a user, or idle for at most
    an hour, stays in the store with its room object untouched, no room
    is added, and the next run is due 30 minutes later. *)
Theorem sweep_deletes_idle_empty_rooms (s : Server) :
  heap (fire Sweep s) = heap s /\
  timers (fire Sweep s) = timers s ++ [(clock s + 1800000, Sweep)] /\
  (forall code, rooms s !! code = None -> rooms (fire Sweep s) !! code = None) /\
  (forall code ref room,
     getRoom s code = Some (ref, room) ->
     (3600000 < clock s - lastActivity room /\ users room = [] ->
      rooms (fire Sweep s) !! code = None) /\
     (~ (3600000 < clock s - lastActivity room /\ users room = []) ->
      getRoom (fire Sweep s) code = Some (ref, room))).
Proof.
  split; [reflexivity|]. split; [reflexivity|]. split.
  - intros code Hnone. cbn.
    destruct (foldl_sweepEntry_shrinks (clock s) (heap s) (map_to_list (rooms s))
                (rooms s) code) as [H|H]; [exact H | by rewrite H].
  - intros code ref room Hget. apply getRoom_Some in Hget as [Hcode Href].
    split.
    + intros [Hidle Hempty]. cbn.
      eapply foldl_sweepEntry_deleted; eauto.
      by apply elem_of_map_to_list.
    + intros Hkeep. apply getRoom_Some. cbn. split; [|exact Href].
      rewrite foldl_sweepEntry_kept; [exact Hcode|].
      intros ref' room' Hin Href'.
      apply elem_of_map_to_list in Hin.
      assert (ref' = ref) as -> by congruence.
      assert (room' = room) as -> by congruence. exact Hkeep.
Qed.

(** ** Creating rooms *)

(** [create-room] stores whatever direction the request carries. *)
Lemma createRoom_getRoom (rnd : Q) (direction : Value) (s : Server) :
  getRoom (createRoom rnd direction s).1 (generateRoomCode rnd) =
  Some (length (heap s), mkRoom direction [] (clock s) (clock s)).
Proof.
  apply getRoom_Some. cbn. split; [apply lookup_insert_eq|].
  rewrite lookup_app_r by lia. by rewrite Nat.sub_diag.
Qed.

(** C9. When the generated code already keys a room, [create-room]
    overwrites the store entry with a fresh room object (no users, both
    timestamps the current time, the direction of the new request) and
    answers with that same code: the old room object and its users are
    no longer reachable under the code, the number of stored rooms does
    not grow, and nothing else in the store changes. *)
Theorem createRoom_collision_replaces (rnd : Q) (direction : Value) (s : Server)
    (old : Ref) (oldRoom : Room) :
  getRoom s (generateRoomCode rnd) = Some (old, oldRoom) ->
  let code := generateRoomCode rnd in
  let s' := (createRoom rnd direction s).1 in
  (createRoom rnd direction s).2 = code /\
  checkRoom code s' = true /\
  getRoom s' code = Some (length (heap s), mkRoom direction [] (clock s) (clock s)) /\
  length (heap s) <> old /\
  heap s' !! old = Some oldRoom /\
  size (rooms s') = size (rooms s) /\
  (forall other, other <> code -> rooms s' !! other = rooms s !! other) /\
  timers s' = timers s /\ outbox s' = outbox s /\ sockets s' = sockets s.
Proof.
  intros Hget code s'. apply getRoom_Some in Hget as [Hcode Hold].
  split; [reflexivity|]. split.
  { apply checkRoom_true. cbn. rewrite lookup_insert_eq. eauto. }
  split; [apply createRoom_getRoom|].
  pose proof (lookup_lt_Some _ _ _ Hold) as Hlt.
  split; [lia|]. split.
  { cbn. by rewrite lookup_app_l. }
  split.
  { cbn. rewrite <- (insert_delete_id (rooms s) _ _ Hcode) at 2.
    rewrite <- (insert_delete_eq (rooms s)).
    rewrite !map_size_insert_None by apply lookup_delete_eq. reflexivity. }
  split; [|done].
  intros other Hne. cbn. by apply lookup_insert_ne.
Qed.

(** ** Relaying speech *)

(** [speech-data] on an existing room, with the language pair the
    handler's [if] selects: [lastActivity] is refreshed, the gateway is
    called on the text with that pair, so that the model sees the prompt
    for that pair, and the rest of the handler is queued with the string
    the gateway returned. *)
(** Every remote call of [translateText] carries the prompt made of its
    arguments, and there is at least one. *)
Lemma translateText_requests (remote : Remote) (text fromLang toLang : string) :
  exists n,
    requests (translateText remote text fromLang toLang)
    = replicate (S n) (prompt text fromLang toLang).
Proof.
  unfold translateText, requests. cbn.
  destruct (outcome (remote 0%nat)); cbn; [by exists 0%nat|].
  destruct (outcome (remote 1%nat)); cbn; [by exists 1%nat|].
  destruct (outcome (remote 2%nat)); cbn; by exists 2%nat.
Qed.

Lemma speechData_existing_room (model : Model) (socketId roomCode text : string)
    (s : Server) (ref : Ref) (room : Room) (fromLang toLang : string) :
  getRoom s roomCode = Some (ref, room) ->
  (if decide (translationDirection room = VString "en-to-hi")
   then ("English", "Hindi") else ("Hindi", "English")) = (fromLang, toLang) ->
  exists translated,
    completion (translateText (model (prompt text fromLang toLang)) text fromLang toLang)
      = Returned (Some translated) /\
    speechData model socketId roomCode text s =
    schedule
      (elapsed (translateText (model (prompt text fromLang toLang)) text fromLang toLang))
      (Delivery socketId roomCode text (Some translated))
      (set_heap (insert ref (set_lastActivity (clock s) room)) s) /\
    exists n,
      requests (translateText (model (prompt text fromLang toLang)) text fromLang toLang)
      = replicate (S n) (prompt text fromLang toLang).
Proof.
  intros Hget Hpair.
  destruct (translateText_returns (model (prompt text fromLang toLang)) text fromLang toLang)
    as [translated Hret].
  exists translated. split; [exact Hret|]. split; [|apply translateText_requests].
  unfold speechData. rewrite Hget, Hpair, Hret. reflexivity.
Qed.

(** C8. [speech-data] for an existing room: with direction ['en-to-hi']
    the gateway is called on the text with English as source and Hindi
    as target, with direction ['hi-to-en'] with Hindi as source and
    English as target.  Every request of that call (there is at least
    one) sends the model the prompt for exactly that pair, and the text
    queued for the broadcast is what the gateway makes of the model's
    replies to that prompt; when the gateway has
    returned, one [translated-speech] event carrying the original text,
    the translation and the sender's socket id goes to the sockets of
    the room other than the sender, so the sender gets no copy and every
    other member gets one. *)
Theorem speechData_translates_and_broadcasts
    (model : Model) (socketId roomCode text : string)
    (s : Server) (ref : Ref) (room : Room) :
  getRoom s roomCode = Some (ref, room) ->
  (translationDirection room = VString "en-to-hi" ->
   exists translated,
     completion (translateText (model (prompt text "English" "Hindi"))
                   text "English" "Hindi") = Returned (Some translated) /\
     speechData model socketId roomCode text s =
     schedule (elapsed (translateText (model (prompt text "English" "Hindi"))
                          text "English" "Hindi"))
       (Delivery socketId roomCode text (Some translated))
       (set_heap (insert ref (set_lastActivity (clock s) room)) s) /\
     exists n,
       requests (translateText (model (prompt text "English" "Hindi"))
                   text "English" "Hindi")
       = replicate (S n) (prompt text "English" "Hindi")) /\
  (translationDirection room = VString "hi-to-en" ->
   exists translated,
     completion (translateText (model (prompt text "Hindi" "English"))
                   text "Hindi" "English") = Returned (Some translated) /\
     speechData model socketId roomCode text s =
     schedule (elapsed (translateText (model (prompt text "Hindi" "English"))
                          text "Hindi" "English"))
       (Delivery socketId roomCode text (Some translated))
       (set_heap (insert ref (set_lastActivity (clock s) room)) s) /\
     exists n,
       requests (translateText (model (prompt text "Hindi" "English"))
                   text "Hindi" "English")
       = replicate (S n) (prompt text "Hindi" "English")) /\
  (forall (translated : string) (s' : Server),
     exists to,
       outbox (fire (Delivery socketId roomCode text (Some translated)) s') =
       outbox s' ++ [mkEmission to (translated_speech text translated socketId)] /\
       (socketId ∉ to) /\
       (forall member, member ∈ members s' roomCode -> member <> socketId -> member ∈ to) /\
       (forall member, member ∈ to -> member ∈ members s' roomCode)).
Proof.
  intros Hget. split; [|split].
  - intros Hdir. eapply speechData_existing_room; [exact Hget|].
    rewrite Hdir. reflexivity.
  - intros Hdir. eapply speechData_existing_room; [exact Hget|].
    rewrite Hdir. reflexivity.
  - intros translated s'. exists (members s' roomCode ∖ {[socketId]}).
    split; [reflexivity|]. split; [|split].
    + intros Hin. apply elem_of_difference in Hin as [_ Hne].
      apply Hne. by apply elem_of_singleton.
    + intros member Hin Hne. apply elem_of_difference. split; [exact Hin|].
      intros Heq. apply elem_of_singleton in Heq. by apply Hne.
    + intros member Hin. by apply elem_of_difference in Hin as [Hin _].
Qed.

(** C10. [speech-data] for a room whose direction is anything but the
    string ['en-to-hi'] (['hi-to-en'], another string, a value of
    another type, or no value at all) calls the gateway with Hindi as
    source and English as target: every request of that call (there is
    at least one) sends the model the Hindi-to-English prompt, and the
    queued text is what the gateway makes of its replies to that prompt;
    no error is emitted, and the broadcast is queued as for a valid
    direction. *)
Theorem speechData_any_other_direction
    (model : Model) (socketId roomCode text : string)
    (s : Server) (ref : Ref) (room : Room) :
  getRoom s roomCode = Some (ref, room) ->
  translationDirection room <> VString "en-to-hi" ->
  exists translated,
    completion (translateText (model (prompt text "Hindi" "English"))
                  text "Hindi" "English") = Returned (Some translated) /\
    speechData model socketId roomCode text s =
    schedule (elapsed (translateText (model (prompt text "Hindi" "English"))
                         text "Hindi" "English"))
      (Delivery socketId roomCode text (Some translated))
      (set_heap (insert ref (set_lastActivity (clock s) room)) s) /\
    outbox (speechData model socketId roomCode text s) = outbox s /\
    exists n,
      requests (translateText (model (prompt text "Hindi" "English"))
                  text "Hindi" "English")
      = replicate (S n) (prompt text "Hindi" "English").
Proof.
  intros Hget Hdir.
  destruct (speechData_existing_room model socketId roomCode text s ref room
              "Hindi" "English" Hget)
    as (translated & Hret & Heq & Hreq).
  { destruct (decide _) as [Heq|_]; [by destruct Hdir | reflexivity]. }
  exists translated. split; [exact Hret|]. split; [exact Heq|].
  split; [|exact Hreq]. rewrite Heq. reflexivity.
Qed.

(** ** The departure check *)

(** With unique names, an entry is determined by its name. *)
Lemma unique_name_entry (l : list User) (i : nat) (x u : User) :
  NoDup (name <$> l) -> l !! i = Some x -> u ∈ l -> name u = name x -> u = x.
Proof.
  intros Hnd Hi Hu Hname. apply list_elem_of_lookup in Hu as [j Hj].
  assert (i = j) as ->; [|congruence].
  eapply NoDup_lookup; [exact Hnd | |].
  - rewrite list_lookup_fmap, Hi. reflexivity.
  - rewrite list_lookup_fmap, Hj. cbn. by rewrite Hname.
Qed.

Lemma reconnected_false (userName socketId : string) (us : list User) :
  reconnected userName socketId us = false <->
  forall u, u ∈ us -> name u = userName -> id u = socketId.
Proof.
  unfold reconnected. rewrite existsb_false. split.
  - intros H u Hu Hname. specialize (H u Hu). cbn in H.
    rewrite (bool_decide_eq_true_2 _ Hname) in H. cbn in H.
    apply negb_false_iff, bool_decide_eq_true in H. exact H.
  - intros H u Hu. cbn. destruct (bool_decide (name u = userName)) eqn:Hname; [|done].
    apply bool_decide_eq_true in Hname. cbn.
    apply negb_false_iff, bool_decide_eq_true. by apply H.
Qed.

(** The user has come back: some entry carries the name under another
    socket id, and the check leaves everything as it is. *)
Lemma departureCheck_reconnected (room : Ref) (code : string) (userIndex : nat)
    (userName socketId : string) (s : Server) (r : Room) (u : User) :
  heap s !! room = Some r ->
  u ∈ users r -> name u = userName -> id u <> socketId ->
  departureCheck room code userIndex userName socketId s = s.
Proof.
  intros Href Hu Hname Hid. unfold departureCheck. rewrite Href.
  destruct (reconnected _ _ (users r)) eqn:Hex; [reflexivity|].
  destruct Hid. by apply (proj1 (reconnected_false _ _ _) Hex u).
Qed.

(** A rejoin under the same name on another socket turns the pending
    check of the old socket into a no-op, whatever index the check has
    captured; here the check fires on the state the join has left. *)
Lemma rejoin_cancels_departure (socketId newSocketId roomCode userName : string)
    (userIndex : nat) (s : Server) (ref : Ref) (room : Room) :
  getRoom s roomCode = Some (ref, room) ->
  newSocketId <> socketId ->
  departureCheck ref roomCode userIndex userName socketId
    (joinRoom newSocketId roomCode userName s)
  = joinRoom newSocketId roomCode userName s.
Proof.
  intros Hget Hne.
  pose proof (joinRoom_getRoom newSocketId roomCode userName s ref room Hget) as Hjoined.
  apply getRoom_Some in Hjoined as [_ Href].
  eapply (departureCheck_reconnected _ _ _ _ _ _ _ (mkUser newSocketId userName));
    [exact Href | | reflexivity | exact Hne].
  cbn. destruct (findIndex _ (users room)) as [i|] eqn:Hfind.
  - apply findIndex_Some in Hfind as (old & Hold & Hname & _).
    apply bool_decide_eq_true in Hname.
    rewrite (alter_as_insert _ _ _ _ Hold), Hname.
    apply list_elem_of_insert. by eapply lookup_lt_Some.
  - apply elem_of_app. right. by apply list_elem_of_singleton.
Qed.

(** No entry carries the name under another socket id: the check
    splices at the index captured at disconnect time, notifies the
    room, and arms the long grace timer when the list is then empty. *)
Lemma departureCheck_not_reconnected (room : Ref) (code : string) (userIndex : nat)
    (userName socketId : string) (s : Server) (r : Room) :
  heap s !! room = Some r ->
  reconnected userName socketId (users r) = false ->
  departureCheck room code userIndex userName socketId s =
  let users' := delete userIndex (users r) in
  let s' := emit (members s code) (user_left socketId userName users')
              (set_heap (insert room (set_users users' r)) s) in
  if (length users' =? 0)%nat then schedule 300000 (EmptyRoomCheck code) s' else s'.
Proof.
  intros Href Hgone. unfold departureCheck. rewrite Href, Hgone. reflexivity.
Qed.

(** C5, as the code has it.  When the timer of a disconnected user
    fires, the user has not come back, and the entry still sits at the
    index it had at disconnect time, the check removes that entry and
    only that entry, emits exactly one [user-left] event whose [users]
    list no longer has the user, and leaves [lastActivity] as it was. *)
Theorem departureCheck_removes_entry (room : Ref) (code : string) (userIndex : nat)
    (userName socketId : string) (s : Server) (r : Room) :
  heap s !! room = Some r ->
  users r !! userIndex = Some (mkUser socketId userName) ->
  NoDup (name <$> users r) ->
  exists r',
    heap (departureCheck room code userIndex userName socketId s) !! room = Some r' /\
    users r' = delete userIndex (users r) /\
    (forall u, u ∈ users r' -> name u <> userName) /\
    (forall u, u ∈ users r -> u <> mkUser socketId userName -> u ∈ users r') /\
    lastActivity r' = lastActivity r /\
    outbox (departureCheck room code userIndex userName socketId s) =
    outbox s ++ [mkEmission (members s code) (user_left socketId userName (users r'))].
Proof.
  intros Href Hentry Hnd.
  rewrite (departureCheck_not_reconnected _ _ _ _ _ _ r Href).
  2:{ apply reconnected_false. intros u Hu Hname.
      by rewrite (unique_name_entry _ _ _ u Hnd Hentry Hu Hname). }
  exists (set_users (delete userIndex (users r)) r). cbn.
  split.
  { destruct (length _ =? 0)%nat; cbn; by eapply heap_insert_lookup. }
  split; [reflexivity|]. split.
  { intros u Hu Hname.
    apply (NoDup_delete_not_elem (name <$> users r) userIndex userName Hnd).
    - rewrite list_lookup_fmap, Hentry. reflexivity.
    - rewrite <- names_delete, <- Hname. by apply list_elem_of_fmap_2. }
  split.
  { intros u Hu Hne. pose proof (delete_Permutation _ _ _ Hentry) as Hp.
    rewrite Hp in Hu. apply elem_of_cons in Hu as [Hu|Hu]; [by destruct Hne | exact Hu]. }
  split; [reflexivity|].
  destruct (length _ =? 0)%nat; reflexivity.
Qed.

(** ** The event loop *)











(** Callbacks never add a room to the store. *)
Lemma fire_rooms_shrink (t : Timer) (s : Server) (code : string) :
  rooms (fire t s) !! code = None \/ rooms (fire t s) !! code = rooms s !! code.
Proof.
  destruct t as [room c userIndex userName socketId|c|socketId c text tr|]; cbn.
  - right. unfold departureCheck. destruct (heap s !! room); [|done].
    destruct (reconnected _ _ _); [done|]. by destruct (length _ =? 0)%nat.
  - unfold emptyRoomCheck. destruct (getRoom s c) as [[ref r]|]; [|by right].
    destruct (length _ =? 0)%nat; [|by right]. cbn.
    destruct (decide (c = code)) as [->|Hne].
    + left. apply lookup_delete_eq.
    + right. by apply lookup_delete_ne.
  - right. by destruct tr.
  - apply foldl_sweepEntry_shrinks.
Qed.




(** ** Invariants of the store *)

Lemma storeOk_update (m : gmap string Ref) (h : list Room) (ref : Ref) (r : Room) :
  storeOk m h -> NoDup (name <$> users r) -> storeOk m (<[ref := r]> h).
Proof.
  intros (Hvalid & Hinj & Hnames) Hr. split; [|split].
  - intros code ref' Hcode. rewrite length_insert. by eapply Hvalid.
  - exact Hinj.
  - by apply Forall_insert.
Qed.

Lemma storeOk_shrink (m m' : gmap string Ref) (h : list Room) :
  (forall code, m' !! code = None \/ m' !! code = m !! code) ->
  storeOk m h -> storeOk m' h.
Proof.
  intros Hsub (Hvalid & Hinj & Hnames). split; [|split].
  - intros code ref Hcode. apply (Hvalid code).
    destruct (Hsub code) as [H|H]; congruence.
  - intros c1 c2 ref H1 H2. apply (Hinj c1 c2 ref).
    + destruct (Hsub c1) as [H|H]; congruence.
    + destruct (Hsub c2) as [H|H]; congruence.
  - exact Hnames.
Qed.

Lemma storeOk_delete (m : gmap string Ref) (h : list Room) (code : string) :
  storeOk m h -> storeOk (delete code m) h.
Proof.
  apply storeOk_shrink. intros c. destruct (decide (code = c)) as [->|Hne].
  - left. apply lookup_delete_eq.
  - right. by apply lookup_delete_ne.
Qed.

Lemma storeOk_room (m : gmap string Ref) (h : list Room) (ref : Ref) (r : Room) :
  storeOk m h -> h !! ref = Some r -> NoDup (name <$> users r).
Proof. intros (_ & _ & Hnames) Href. by apply (Forall_lookup_1 _ _ _ _ Hnames Href). Qed.

(** The list [join-room] leaves has no duplicate names if the list it
    found had none. *)
Lemma join_users_NoDup (socketId userName : string) (us : list User) :
  NoDup (name <$> us) ->
  NoDup (name <$>
         match findIndex (fun user => bool_decide (name user = userName)) us with
         | Some i => alter (fun user => mkUser socketId (name user)) i us
         | None => us ++ [mkUser socketId userName]
         end).
Proof.
  intros Hnd. destruct (findIndex _ us) as [i|] eqn:Hfind.
  - by rewrite names_alter_id.
  - rewrite fmap_app. cbn. apply NoDup_app.
    split; [exact Hnd|]. split; [|apply NoDup_singleton].
    intros x Hx Hx'. apply list_elem_of_singleton in Hx' as ->.
    apply list_elem_of_fmap in Hx as (u & Hname & Hu).
    pose proof (proj1 (findIndex_None _ _) Hfind u Hu) as Hfalse.
    apply bool_decide_eq_false in Hfalse. by apply Hfalse.
Qed.

Lemma initial_wellFormed : wellFormed initial.
Proof.
  unfold wellFormed, storeOk, initial. cbn. split; [|split].
  - intros code ref H. by rewrite lookup_empty in H.
  - intros c1 c2 ref H. by rewrite lookup_empty in H.
  - constructor.
Qed.

Lemma createRoom_wellFormed (rnd : Q) (direction : Value) (s : Server) :
  wellFormed s -> wellFormed (createRoom rnd direction s).1.
Proof.
  intros (Hvalid & Hinj & Hnames). unfold wellFormed. cbn. split; [|split].
  - intros code ref. rewrite length_app. cbn.
    destruct (decide (generateRoomCode rnd = code)) as [->|Hne].
    + rewrite lookup_insert_eq. intros [= <-]. lia.
    + rewrite lookup_insert_ne by done. intros H. specialize (Hvalid _ _ H). lia.
  - intros c1 c2 ref.
    destruct (decide (generateRoomCode rnd = c1)) as [<-|H1],
             (decide (generateRoomCode rnd = c2)) as [<-|H2]; [done| | |].
    + rewrite lookup_insert_eq, lookup_insert_ne by done.
      intros [= <-] H. specialize (Hvalid _ _ H). lia.
    + rewrite lookup_insert_eq, lookup_insert_ne by done.
      intros H [= <-]. specialize (Hvalid _ _ H). lia.
    + rewrite !lookup_insert_ne by done. apply Hinj.
  - apply Forall_app. split; [exact Hnames|]. apply Forall_singleton. cbn. constructor.
Qed.

Lemma joinRoom_wellFormed (socketId roomCode userName : string) (s : Server) :
  wellFormed s -> wellFormed (joinRoom socketId roomCode userName s).
Proof.
  intros Hs. unfold joinRoom.
  destruct (getRoom s roomCode) as [[ref room]|] eqn:Hget; [|exact Hs].
  apply getRoom_Some in Hget as [_ Href].
  unfold wellFormed. cbn. apply storeOk_update; [exact Hs|]. cbn.
  apply join_users_NoDup. by eapply storeOk_room.
Qed.

Lemma heartbeat_wellFormed (socketId roomCode : string) (s : Server) :
  wellFormed s -> wellFormed (heartbeat socketId roomCode s).
Proof.
  intros Hs. unfold heartbeat.
  destruct (getRoom s roomCode) as [[ref room]|] eqn:Hget; [|exact Hs].
  apply getRoom_Some in Hget as [_ Href].
  unfold wellFormed. cbn. apply storeOk_update; [exact Hs|]. cbn.
  by eapply storeOk_room.
Qed.

Lemma speechData_wellFormed (model : Model) (socketId roomCode text : string)
    (s : Server) :
  wellFormed s -> wellFormed (speechData model socketId roomCode text s).
Proof.
  intros Hs. unfold speechData.
  destruct (getRoom s roomCode) as [[ref room]|] eqn:Hget; [|exact Hs].
  apply getRoom_Some in Hget as [_ Href].
  assert (Hok : storeOk (rooms s) (<[ref := set_lastActivity (clock s) room]> (heap s))).
  { apply storeOk_update; [exact Hs|]. cbn. by eapply storeOk_room. }
  destruct (decide _); cbn; destruct (completion _); exact Hok.
Qed.

Lemma disconnect_wellFormed (socketId : string) (s : Server) :
  wellFormed s -> wellFormed (disconnect socketId s).
Proof.
  intros Hs. unfold disconnect.
  destruct (sockets s !! socketId) as [sock|]; [|exact Hs].
  destruct (currentRoom sock) as [code|]; [|exact Hs].
  destruct (getRoom _ code) as [[ref room]|]; [|exact Hs].
  destruct (findIndex _ _) as [i|]; [|exact Hs].
  destruct (users room !! i); exact Hs.
Qed.

Lemma handle_wellFormed (i : Input) (s : Server) :
  wellFormed s -> wellFormed (handle i s).1.
Proof.
  intros Hs. destruct i; cbn.
  - by apply createRoom_wellFormed.
  - exact Hs.
  - destruct (connected _ s); exact Hs.
  - destruct (connected _ s); [by apply joinRoom_wellFormed | exact Hs].
  - destruct (connected _ s); [by apply heartbeat_wellFormed | exact Hs].
  - destruct (connected _ s); [by apply speechData_wellFormed | exact Hs].
  - by apply disconnect_wellFormed.
Qed.

Lemma fire_wellFormed (t : Timer) (s : Server) :
  wellFormed s -> wellFormed (fire t s).
Proof.
  intros Hs.
  destruct t as [room c userIndex userName socketId|c|socketId c text tr|]; cbn.
  - unfold departureCheck. destruct (heap s !! room) as [r|] eqn:Href; [|exact Hs].
    destruct (reconnected _ _ _); [exact Hs|].
    assert (Hok : storeOk (rooms s)
                    (<[room := set_users (delete userIndex (users r)) r]> (heap s))).
    { apply storeOk_update; [exact Hs|]. cbn. rewrite names_delete.
      apply NoDup_delete. by eapply storeOk_room. }
    destruct (length _ =? 0)%nat; exact Hok.
  - unfold emptyRoomCheck. destruct (getRoom s c) as [[ref r]|]; [|exact Hs].
    destruct (length _ =? 0)%nat; [|exact Hs]. by apply storeOk_delete.
  - destruct tr; exact Hs.
  - unfold wellFormed. cbn. eapply storeOk_shrink; [|exact Hs].
    apply foldl_sweepEntry_shrinks.
Qed.

Lemma advance_wellFormed (fuel : nat) (now : Z) (s : Server) :
  wellFormed s -> wellFormed (advance fuel now s).
Proof.
  revert s. induction fuel as [|fuel IH]; intros s Hs; cbn; [exact Hs|].
  destruct (earliest (timers s)) as [[i [due t]]|]; [|exact Hs].
  destruct (due <=? now); [|exact Hs]. apply IH. by apply fire_wellFormed.
Qed.

Lemma runUntil_wellFormed (now : Z) (s : Server) :
  wellFormed s -> wellFormed (runUntil now s).
Proof. intros Hs. unfold runUntil. by apply advance_wellFormed. Qed.

(** Every state the server reaches is well formed; in particular no
    room ever lists a name twice. *)
Lemma run_wellFormed (trace : list (Z * Input)) (s : Server) :
  wellFormed s -> wellFormed (run trace s).1.
Proof.
  revert s. induction trace as [|[t i] trace IH]; intros s Hs; cbn; [exact Hs|].
  pose proof (handle_wellFormed i (runUntil t s) (runUntil_wellFormed t s Hs)) as H1.
  destruct (handle i (runUntil t s)) as [s1 r].
  specialize (IH s1 H1). destruct (run trace s1) as [s2 rs]. exact IH.
Qed.

(** ** The long grace timer *)









(** ** Sample runs *)

(** C1.  The run [twoDepartures]: A's check removes index 0, and B's
    check, one second later, still splices at index 1, the position B
    had when it disconnected.  That position now holds C, who never
    left: C's entry is removed, B's entry stays, and the [user-left]
    event for B lists B among the remaining users. *)
Theorem departure_check_splices_stale_index :
  users <$> heap (run twoDepartures initial).1 = [[mkUser "s2" "B"]] /\
  departures (run twoDepartures initial).1 =
    [user_left "s1" "A" [mkUser "s2" "B"; mkUser "s3" "C"];
     user_left "s2" "B" [mkUser "s2" "B"]] /\
  timers (run twoDepartures initial).1 = [(1800000, Sweep)].
Proof. vm_compute. repeat split; reflexivity. Qed.

(** C4.  The run [quickRejoin]: C is back under a new socket id one
    second after its disconnect.  B's check splices at B's old index
    and removes C's entry; C's own check then finds no entry under C's
    name, takes C for gone and emits [user-left] for C. *)
Theorem rejoined_user_reported_left :
  users <$> heap (run quickRejoin initial).1 = [[mkUser "s2" "B"]] /\
  departures (run quickRejoin initial).1 =
    [user_left "s1" "A" [mkUser "s2" "B"; mkUser "s4" "C"];
     user_left "s2" "B" [mkUser "s2" "B"];
     user_left "s3" "C" [mkUser "s2" "B"]].
Proof. vm_compute. repeat split; reflexivity. Qed.

(** Against C5 as stated.  The departure check of [soloDeparture] fires
    at 25000 ms, removes the user and emits [user-left], and the room's
    [lastActivity] is still the time of the join, 1000 ms. *)
Lemma departure_keeps_lastActivity :
  departures (run soloDeparture initial).1 = [user_left "s1" "A" []] /\
  heap (run soloDeparture initial).1 = [mkRoom (VString "en-to-hi") [] 0 1000] /\
  clock (run soloDeparture initial).1 = 25000 /\
  ~ (forall r, r ∈ heap (run soloDeparture initial).1 -> lastActivity r = 25000).
Proof.
  assert (Hheap : heap (run soloDeparture initial).1
                  = [mkRoom (VString "en-to-hi") [] 0 1000])
    by (vm_compute; reflexivity).
  split; [vm_compute; reflexivity|]. split; [exact Hheap|].
  split; [vm_compute; reflexivity|].
  intros H. specialize (H (mkRoom (VString "en-to-hi") [] 0 1000)).
  rewrite Hheap in H. discriminate H. by apply list_elem_of_singleton.
Qed.


Lemma departureCheck_removes_entry_witness :
  exists r',
    heap (departureCheck 0%nat "550000" 0%nat "A" "s1" lastUserGone) !! 0%nat = Some r' /\
    users r' = [] /\
    lastActivity r' = 1000 /\
    departures (departureCheck 0%nat "550000" 0%nat "A" "s1" lastUserGone)
      = [user_left "s1" "A" []].
Proof.
  destruct (departureCheck_removes_entry 0%nat "550000" 0%nat "A" "s1" lastUserGone
              (mkRoom (VString "en-to-hi") [mkUser "s1" "A"] 0 1000))
    as (r' & Hheap & Husers & _ & _ & Hact & Hout).
  - vm_compute. reflexivity.
  - reflexivity.
  - apply NoDup_singleton.
  - exists r'. split; [exact Hheap|]. split; [exact Husers|]. split; [exact Hact|].
    unfold departures. rewrite Hout, Husers. vm_compute. reflexivity.
Defined.

Lemma sweep_deletes_idle_empty_rooms_witness :
  rooms (fire Sweep idleAndBusy) !! "111111" = None /\
  getRoom (fire Sweep idleAndBusy) "222222"
    = Some (1%nat, mkRoom (VString "hi-to-en") [mkUser "s9" "Z"] 0 0).
Proof.
  destruct (sweep_deletes_idle_empty_rooms idleAndBusy) as (_ & _ & _ & H). split.
  - refine (proj1 (H "111111" 0%nat (mkRoom (VString "en-to-hi") [] 0 0) _) _).
    + reflexivity.
    + split; [vm_compute; reflexivity | reflexivity].
  - refine (proj2 (H "222222" 1%nat (mkRoom (VString "hi-to-en") [mkUser "s9" "Z"] 0 0) _) _).
    + reflexivity.
    + intros [_ Hempty]. discriminate Hempty.
Defined.

Lemma createRoom_collision_replaces_witness :
  getRoom (createRoom (1 # 2) VUndefined lobbyServer).1 "550000"
    = Some (1%nat, mkRoom VUndefined [] 3000 3000) /\
  size (rooms (createRoom (1 # 2) VUndefined lobbyServer).1) = 1%nat.
Proof.
  destruct (createRoom_collision_replaces (1 # 2) VUndefined lobbyServer 0%nat lobbyRoom)
    as (_ & _ & Hget & _ & _ & Hsize & _); [vm_compute; reflexivity|].
  split; [exact Hget | exact Hsize].
Defined.

Lemma speechData_translates_and_broadcasts_witness :
  exists translated,
    completion (translateText (dictionary (prompt "Hello" "English" "Hindi"))
                  "Hello" "English" "Hindi") = Returned (Some translated) /\
    speechData dictionary "s1" "550000" "Hello" lobbyServer =
    schedule (elapsed (translateText (dictionary (prompt "Hello" "English" "Hindi"))
                         "Hello" "English" "Hindi"))
      (Delivery "s1" "550000" "Hello" (Some translated))
      (set_heap (insert 0%nat (set_lastActivity (clock lobbyServer) lobbyRoom)) lobbyServer) /\
    translated = "namaste".
Proof.
  destruct (proj1 (speechData_translates_and_broadcasts dictionary "s1" "550000" "Hello"
                     lobbyServer 0%nat lobbyRoom ltac:(vm_compute; reflexivity)) eq_refl)
    as (translated & Hret & Heq & _).
  exists translated. split; [exact Hret|]. split; [exact Heq|].
  vm_compute in Hret. by injection Hret.
Defined.

Lemma speechData_any_other_direction_witness :
  exists translated,
    completion (translateText (dictionary (prompt "namaste" "Hindi" "English"))
                  "namaste" "Hindi" "English") = Returned (Some translated) /\
    speechData dictionary "s1" "325000" "namaste"
      (createRoom (1 # 4) VUndefined initial).1 =
    schedule (elapsed (translateText (dictionary (prompt "namaste" "Hindi" "English"))
                         "namaste" "Hindi" "English"))
      (Delivery "s1" "325000" "namaste" (Some translated))
      (set_heap (insert 0%nat (set_lastActivity 0 (mkRoom VUndefined [] 0 0)))
         (createRoom (1 # 4) VUndefined initial).1) /\
    outbox (speechData dictionary "s1" "325000" "namaste"
              (createRoom (1 # 4) VUndefined initial).1) = [] /\
    translated = "hello".
Proof.
  destruct (speechData_any_other_direction dictionary "s1" "325000" "namaste"
              (createRoom (1 # 4) VUndefined initial).1 0%nat (mkRoom VUndefined [] 0 0))
    as (translated & Hret & Heq & Hout & _).
  - vm_compute. reflexivity.
  - discriminate.
  - exists translated. split; [exact Hret|]. split; [exact Heq|]. split; [exact Hout|].
    vm_compute in Hret. by injection Hret.
Defined.

(** The run [relay]: both utterances reach B and C and not the speaker
    A, the first with the trimmed translation, the second with the
    placeholder. *)
Example relay_reaches_the_others :
  relayed (run relay initial).1 =
    [(["s3"; "s2"], translated_speech "Hello" "namaste" "s1");
     (["s3"; "s2"],
      translated_speech "Bye" "[Translation unavailable: quota exceeded]" "s1")].
Proof. vm_compute. reflexivity. Qed.

(** * Further properties of the handlers *)

(** ** Socket.io rooms *)

Lemma elem_of_members (s : Server) (code socketId : string) :
  socketId ∈ members s code <->
  exists sock, sockets s !! socketId = Some sock /\ code ∈ joined sock.
Proof.
  unfold members. rewrite elem_of_dom. split.
  - intros [sock Hsock]. apply map_lookup_filter_Some in Hsock as [Hsock Hin].
    exists sock. split; [exact Hsock | exact Hin].
  - intros (sock & Hsock & Hin). exists sock.
    apply map_lookup_filter_Some. split; [exact Hsock | exact Hin].
Qed.

(** X1. A room code nobody has stored: [join-room] and [speech-data]
    answer the sender, and only the sender, with one ['Room not found']
    error, [heartbeat] stays silent, and none of the three touches the
    store, the room objects, the sockets or the timers; in particular
    the gateway is not called. *)
Theorem missing_room_is_reported_to_sender
    (model : Model) (socketId roomCode userName text : string) (s : Server) :
  getRoom s roomCode = None ->
  joinRoom socketId roomCode userName s
    = emit {[socketId]} (error "Room not found") s /\
  speechData model socketId roomCode text s
    = emit {[socketId]} (error "Room not found") s /\
  heartbeat socketId roomCode s = s /\
  members (joinRoom socketId roomCode userName s) roomCode = members s roomCode /\
  timers (speechData model socketId roomCode text s) = timers s.
Proof.
  intros Hget. unfold joinRoom, speechData, heartbeat. rewrite Hget.
  repeat split; reflexivity.
Qed.

Lemma missing_room_is_reported_to_sender_witness :
  outbox (joinRoom "s1" "123456" "A" lobbyServer)
    = outbox lobbyServer ++ [mkEmission {["s1"]} (error "Room not found")] /\
  heartbeat "s1" "123456" lobbyServer = lobbyServer.
Proof.
  destruct (missing_room_is_reported_to_sender dictionary "s1" "123456" "A" "hi"
              lobbyServer) as (Hjoin & _ & Hbeat & _); [vm_compute; reflexivity|].
  split; [by rewrite Hjoin | exact Hbeat].
Defined.

(** X2. A [join-room] that fails for want of the room leaves no trace on
    the connection: the socket has joined nothing and has no current
    room, so when it disconnects no departure check is set. *)
Theorem failed_join_then_disconnect
    (socketId roomCode userName : string) (s : Server) (sock : Socket) :
  getRoom s roomCode = None ->
  sockets s !! socketId = Some sock ->
  currentRoom sock = None ->
  timers (disconnect socketId (joinRoom socketId roomCode userName s)) = timers s /\
  heap (disconnect socketId (joinRoom socketId roomCode userName s)) = heap s /\
  rooms (disconnect socketId (joinRoom socketId roomCode userName s)) = rooms s.
Proof.
  intros Hget Hsock Hnone. unfold joinRoom. rewrite Hget.
  unfold disconnect. cbn. rewrite Hsock, Hnone. repeat split; reflexivity.
Qed.

Lemma failed_join_then_disconnect_witness :
  timers (disconnect "s9" (joinRoom "s9" "123456" "Z" (connection "s9" lobbyServer)))
    = timers (connection "s9" lobbyServer).
Proof.
  refine (proj1 (failed_join_then_disconnect "s9" "123456" "Z" (connection "s9" lobbyServer)
                   (mkSocket None ∅) _ _ _)).
  - vm_compute. reflexivity.
  - apply lookup_insert_eq.
  - reflexivity.
Defined.

(** X3. [heartbeat] for a stored room sets its [lastActivity] to the
    current time and changes nothing else of the room (users, direction,
    creation time), keeps the store as it is, and acknowledges to the
    sender alone with one [heartbeat-ack]. *)
Theorem heartbeat_refreshes_activity
    (socketId roomCode : string) (s : Server) (ref : Ref) (room : Room) :
  getRoom s roomCode = Some (ref, room) ->
  getRoom (heartbeat socketId roomCode s) roomCode
    = Some (ref, mkRoom (translationDirection room) (users room) (createdAt room) (clock s)) /\
  rooms (heartbeat socketId roomCode s) = rooms s /\
  timers (heartbeat socketId roomCode s) = timers s /\
  outbox (heartbeat socketId roomCode s)
    = outbox s ++ [mkEmission {[socketId]} heartbeat_ack].
Proof.
  intros Hget. unfold heartbeat. rewrite Hget.
  apply getRoom_Some in Hget as [Hcode Href].
  split; [|repeat split; reflexivity].
  apply getRoom_Some. cbn. split; [exact Hcode|]. by eapply heap_insert_lookup.
Qed.

Lemma heartbeat_refreshes_activity_witness :
  getRoom (heartbeat "s2" "550000" (set_clock 9000 lobbyServer)) "550000"
    = Some (0%nat,
            mkRoom (VString "en-to-hi")
              [mkUser "s1" "A"; mkUser "s2" "B"; mkUser "s3" "C"] 0 9000).
Proof.
  refine (proj1 (heartbeat_refreshes_activity "s2" "550000" (set_clock 9000 lobbyServer)
                   0%nat lobbyRoom _)).
  vm_compute. reflexivity.
Defined.

(** X4. A heartbeat keeps a room, even one without users, through every
    cleanup run of the following hour: a sweep whose clock is at most
    3600000 ms past the heartbeat leaves the room stored. *)
Theorem heartbeat_defers_sweep
    (socketId roomCode : string) (s : Server) (ref : Ref) (room : Room) (later : Z) :
  getRoom s roomCode = Some (ref, room) ->
  later - clock s <= 3600000 ->
  checkRoom roomCode (sweep (set_clock later (heartbeat socketId roomCode s))) = true.
Proof.
  intros Hget Hlater. apply checkRoom_true.
  unfold heartbeat. rewrite Hget. apply getRoom_Some in Hget as [Hcode Href]. cbn.
  rewrite foldl_sweepEntry_kept; [by rewrite Hcode|].
  intros ref' room' Hin Href' [Hidle _].
  apply elem_of_map_to_list in Hin.
  assert (ref' = ref) as -> by congruence.
  rewrite (heap_insert_lookup _ _ _ _ Href) in Href'.
  injection Href' as <-. cbn in Hidle. lia.
Qed.

Lemma heartbeat_defers_sweep_witness :
  checkRoom "111111" (sweep (set_clock 7800000 (heartbeat "s9" "111111" idleAndBusy)))
    = true.
Proof.
  refine (heartbeat_defers_sweep "s9" "111111" idleAndBusy 0%nat
            (mkRoom (VString "en-to-hi") [] 0 0) 7800000 _ _).
  - reflexivity.
  - vm_compute. discriminate.
Defined.

(** X5. The long grace timer does not look at [lastActivity]: a room
    without users is deleted when the timer fires even if a heartbeat
    has just refreshed it. *)
Theorem heartbeat_does_not_defer_long_grace
    (socketId roomCode : string) (s : Server) (ref : Ref) (room : Room) :
  getRoom s roomCode = Some (ref, room) ->
  users room = [] ->
  checkRoom roomCode (emptyRoomCheck roomCode (heartbeat socketId roomCode s)) = false.
Proof.
  intros Hget Hempty. apply checkRoom_false.
  unfold heartbeat. rewrite Hget. apply getRoom_Some in Hget as [Hcode Href].
  unfold emptyRoomCheck.
  assert (getRoom (emit {[socketId]} heartbeat_ack
                     (set_heap (insert ref (set_lastActivity (clock s) room)) s)) roomCode
          = Some (ref, set_lastActivity (clock s) room)) as ->.
  { apply getRoom_Some. cbn. split; [exact Hcode|]. by eapply heap_insert_lookup. }
  cbn. rewrite Hempty. cbn. apply lookup_delete_eq.
Qed.

Lemma heartbeat_does_not_defer_long_grace_witness :
  checkRoom "111111" (emptyRoomCheck "111111" (heartbeat "s9" "111111" idleAndBusy))
    = false.
Proof.
  refine (heartbeat_does_not_defer_long_grace "s9" "111111" idleAndBusy 0%nat
            (mkRoom (VString "en-to-hi") [] 0 0) _ _); reflexivity.
Defined.

(** X6. A join before the long grace timer fires saves the room: after
    [join-room] the room has a user, and the timer leaves the server as
    it is. *)
Theorem join_cancels_long_grace
    (socketId roomCode userName : string) (s : Server) (ref : Ref) (room : Room) :
  getRoom s roomCode = Some (ref, room) ->
  emptyRoomCheck roomCode (joinRoom socketId roomCode userName s)
    = joinRoom socketId roomCode userName s /\
  checkRoom roomCode (emptyRoomCheck roomCode (joinRoom socketId roomCode userName s))
    = true.
Proof.
  intros Hget.
  pose proof (joinRoom_getRoom socketId roomCode userName s ref room Hget) as Hjoined.
  assert (Hsame : emptyRoomCheck roomCode (joinRoom socketId roomCode userName s)
                  = joinRoom socketId roomCode userName s).
  { unfold emptyRoomCheck. rewrite Hjoined. cbn.
    destruct (findIndex _ (users room)) as [i|] eqn:Hfind.
    - apply findIndex_Some in Hfind as (old & Hold & _).
      rewrite length_alter. apply lookup_lt_Some in Hold.
      destruct (users room); [cbn in Hold; lia | reflexivity].
    - rewrite length_app. cbn. by rewrite Nat.add_1_r. }
  split; [exact Hsame|]. rewrite Hsame. apply checkRoom_true.
  apply getRoom_Some in Hjoined as [Hcode _]. eauto.
Qed.

Lemma join_cancels_long_grace_witness :
  checkRoom "111111" (emptyRoomCheck "111111" (joinRoom "s9" "111111" "Z" idleAndBusy))
    = true.
Proof.
  refine (proj2 (join_cancels_long_grace "s9" "111111" "Z" idleAndBusy 0%nat
                   (mkRoom (VString "en-to-hi") [] 0 0) _)).
  reflexivity.
Defined.

(** ** Disconnecting *)

(** A disconnect changes neither the store nor a room object. *)
Lemma disconnect_keeps_store (socketId : string) (s : Server) :
  rooms (disconnect socketId s) = rooms s /\ heap (disconnect socketId s) = heap s.
Proof.
  unfold disconnect. destruct (sockets s !! socketId) as [sock|]; [|done].
  destruct (currentRoom sock) as [c|]; [|done].
  destruct (getRoom _ c) as [[ref room]|]; [|done].
  destruct (findIndex _ _) as [k|]; [|done].
  by destruct (users room !! k).
Qed.

(** X7. When a socket with an entry in its current room disconnects,
    the user is not removed yet and nobody is told: the room objects, the
    store and the emitted events stay as they are, the socket leaves its
    socket.io rooms, and exactly one departure check is set, due 20
    seconds later, with the room object, the index of the first entry
    under the socket's id and that entry's name. *)
Theorem disconnect_starts_short_grace
    (socketId code : string) (s : Server) (sock : Socket) (ref : Ref) (room : Room)
    (userIndex : nat) :
  sockets s !! socketId = Some sock ->
  currentRoom sock = Some code ->
  getRoom s code = Some (ref, room) ->
  findIndex (fun user => bool_decide (id user = socketId)) (users room) = Some userIndex ->
  exists user,
    users room !! userIndex = Some user /\ id user = socketId /\
    timers (disconnect socketId s)
      = timers s ++ [(clock s + 20000,
                      DepartureCheck ref code userIndex (name user) socketId)] /\
    heap (disconnect socketId s) = heap s /\
    rooms (disconnect socketId s) = rooms s /\
    outbox (disconnect socketId s) = outbox s /\
    (forall c, socketId ∉ members (disconnect socketId s) c).
Proof.
  intros Hsock Hcur Hget Hfind.
  destruct (findIndex_Some _ _ _ Hfind) as (user & Huser & Hid & _).
  apply bool_decide_eq_true in Hid.
  exists user. split; [exact Huser|]. split; [exact Hid|].
  assert (Hmem : forall s', sockets s' = delete socketId (sockets s) ->
                            forall c, socketId ∉ members s' c).
  { intros s' Hs' c Hin. apply elem_of_members in Hin as (k & Hk & _).
    rewrite Hs', lookup_delete_eq in Hk. discriminate. }
  unfold disconnect. rewrite Hsock, Hcur.
  assert (getRoom (set_sockets (delete socketId) s) code = Some (ref, room)) as ->
    by exact Hget.
  rewrite Hfind, Huser. repeat split; try reflexivity. by apply Hmem.
Qed.

Lemma disconnect_starts_short_grace_witness :
  timers (disconnect "s2" lobbyServer)
    = timers lobbyServer
      ++ [(clock lobbyServer + 20000, DepartureCheck 0 "550000" 1 "B" "s2")].
Proof.
  destruct (disconnect_starts_short_grace "s2" "550000" lobbyServer
              (mkSocket (Some "550000") {["550000"]}) 0%nat lobbyRoom 1%nat)
    as (user & Huser & _ & Htimers & _).
  - vm_compute. reflexivity.
  - reflexivity.
  - vm_compute. reflexivity.
  - reflexivity.
  - rewrite Htimers. injection Huser as <-. reflexivity.
Defined.

(** A disconnect that finds no entry under the socket's id in the
    socket's current room only drops the socket. *)
Lemma disconnect_no_entry (socketId : string) (s : Server) :
  (forall sock code ref room,
     sockets s !! socketId = Some sock -> currentRoom sock = Some code ->
     getRoom s code = Some (ref, room) ->
     forall user, user ∈ users room -> id user <> socketId) ->
  timers (disconnect socketId s) = timers s /\
  outbox (disconnect socketId s) = outbox s.
Proof.
  intros Hnone. unfold disconnect.
  destruct (sockets s !! socketId) as [sock|] eqn:Hsock; [|done].
  destruct (currentRoom sock) as [code|] eqn:Hcur; [|done].
  destruct (getRoom (set_sockets (delete socketId) s) code) as [[ref room]|] eqn:Hget;
    [|done].
  destruct (findIndex _ (users room)) as [i|] eqn:Hfind; [|done].
  apply findIndex_Some in Hfind as (user & Huser & Hid & _).
  apply bool_decide_eq_true in Hid.
  destruct (Hnone sock code ref room eq_refl Hcur Hget user); [|exact Hid].
  apply list_elem_of_lookup. eauto.
Qed.

(** X8. When no entry of the socket's current room carries its id (the
    entry was taken over by a rejoin, or removed), or the socket has no
    current room, or the room is gone, the disconnect sets no timer and
    changes neither store nor room objects nor emitted events. *)
Theorem disconnect_without_entry_is_silent (socketId : string) (s : Server) :
  (forall sock code ref room,
     sockets s !! socketId = Some sock -> currentRoom sock = Some code ->
     getRoom s code = Some (ref, room) ->
     forall user, user ∈ users room -> id user <> socketId) ->
  timers (disconnect socketId s) = timers s /\
  heap (disconnect socketId s) = heap s /\
  rooms (disconnect socketId s) = rooms s /\
  outbox (disconnect socketId s) = outbox s.
Proof.
  intros Hnone. destruct (disconnect_no_entry socketId s Hnone) as [Htimers Houtbox].
  destruct (disconnect_keeps_store socketId s) as [Hrooms Hheap].
  repeat split; assumption.
Qed.

Lemma disconnect_without_entry_is_silent_witness :
  timers (disconnect "s9" (connection "s9" initial)) = timers (connection "s9" initial).
Proof.
  refine (proj1 (disconnect_without_entry_is_silent "s9" (connection "s9" initial) _)).
  intros sock code ref room Hsock Hcur.
  change (sockets (connection "s9" initial))
    with (<["s9" := mkSocket None ∅]> (sockets initial)) in Hsock.
  rewrite lookup_insert_eq in Hsock. injection Hsock as <-. discriminate Hcur.
Defined.

(** X9. A reconnect that is faster than the loss of the old connection:
    once [join-room] under the same name has overwritten the id of the
    old socket's entry, the old socket's disconnect finds no entry of its
    own and sets no departure check. *)
Theorem takeover_then_disconnect
    (oldSocketId newSocketId code userName : string) (s : Server)
    (sock : Socket) (ref : Ref) (room : Room) :
  sockets s !! oldSocketId = Some sock ->
  currentRoom sock = Some code ->
  getRoom s code = Some (ref, room) ->
  (forall user, user ∈ users room -> id user = oldSocketId -> name user = userName) ->
  NoDup (name <$> users room) ->
  newSocketId <> oldSocketId ->
  timers (disconnect oldSocketId (joinRoom newSocketId code userName s)) = timers s /\
  heap (disconnect oldSocketId (joinRoom newSocketId code userName s))
    = heap (joinRoom newSocketId code userName s).
Proof.
  intros Hsock Hcur Hget Hown Hnd Hne.
  pose proof (joinRoom_getRoom newSocketId code userName s ref room Hget) as Hjoined.
  destruct (disconnect_keeps_store oldSocketId (joinRoom newSocketId code userName s))
    as [_ Hh].
  destruct (disconnect_no_entry oldSocketId
              (joinRoom newSocketId code userName s)) as (Ht & _).
  - intros sock' code' ref' room' Hsock' Hcur' Hget' user Huser Hid.
    assert (Hsock0 : sockets (joinRoom newSocketId code userName s) !! oldSocketId
                     = Some sock).
    { unfold joinRoom. rewrite Hget. cbn. rewrite lookup_alter_ne; [exact Hsock | done]. }
    assert (sock' = sock) as -> by congruence.
    assert (code' = code) as -> by congruence.
    rewrite Hjoined in Hget'. injection Hget' as <- <-. cbn in Huser.
    destruct (findIndex _ (users room)) as [i|] eqn:Hfind.
    + apply findIndex_Some in Hfind as (old & Hold & Hname & _).
      apply bool_decide_eq_true in Hname.
      apply list_elem_of_lookup in Huser as [j Hj].
      rewrite list_lookup_alter in Hj. destruct (decide (i = j)) as [<-|Hij].
      * rewrite Hold in Hj. cbn in Hj. injection Hj as <-. cbn in Hid. by apply Hne.
      * assert (Hu : user ∈ users room) by (apply list_elem_of_lookup; eauto).
        pose proof (Hown user Hu Hid) as Huname.
        assert (user = old).
        { eapply unique_name_entry; [exact Hnd | exact Hold | exact Hu | congruence]. }
        subst user. apply Hij. eapply NoDup_lookup; [exact Hnd | |].
        -- rewrite list_lookup_fmap, Hold. reflexivity.
        -- rewrite list_lookup_fmap, Hj. reflexivity.
    + apply elem_of_app in Huser as [Huser|Huser].
      * pose proof (Hown user Huser Hid) as Huname.
        pose proof (proj1 (findIndex_None _ _) Hfind user Huser) as Hfalse.
        apply bool_decide_eq_false in Hfalse. by apply Hfalse.
      * apply list_elem_of_singleton in Huser as ->. cbn in Hid. by apply Hne.
  - split; [|exact Hh]. rewrite Ht. unfold joinRoom. by rewrite Hget.
Qed.

Lemma takeover_then_disconnect_witness :
  timers (disconnect "s2" (joinRoom "s4" "550000" "B" lobbyServer)) = timers lobbyServer.
Proof.
  refine (proj1 (takeover_then_disconnect "s2" "s4" "550000" "B" lobbyServer
                   (mkSocket (Some "550000") {["550000"]}) 0%nat lobbyRoom _ _ _ _ _ _)).
  - vm_compute. reflexivity.
  - reflexivity.
  - vm_compute. reflexivity.
  - intros user Huser Hid. cbn in Huser.
    repeat (apply elem_of_cons in Huser as [->|Huser]; [cbn in Hid; try discriminate Hid; try reflexivity|]).
    by apply elem_of_nil in Huser.
  - cbn. apply (bool_decide_unpack _). vm_compute. exact I.
  - discriminate.
Defined.

(** ** Joining *)

(** A connected socket that joins a stored room is in the room's
    socket.io room afterwards, with everyone who was there before. *)
Lemma joinRoom_members (socketId roomCode userName : string) (s : Server)
    (sock : Socket) (ref : Ref) (room : Room) :
  getRoom s roomCode = Some (ref, room) ->
  sockets s !! socketId = Some sock ->
  socketId ∈ members (joinRoom socketId roomCode userName s) roomCode /\
  (forall other, other ∈ members s roomCode ->
                 other ∈ members (joinRoom socketId roomCode userName s) roomCode).
Proof.
  intros Hget Hsock. unfold joinRoom. rewrite Hget. split.
  - apply elem_of_members. cbn. rewrite lookup_alter_eq, Hsock. cbn.
    eexists. split; [reflexivity|]. cbn. apply elem_of_union. left.
    by apply elem_of_singleton.
  - intros other Hother. apply elem_of_members in Hother as (k & Hk & Hin).
    apply elem_of_members. cbn.
    destruct (decide (socketId = other)) as [<-|Hne].
    + rewrite lookup_alter_eq, Hk. cbn. eexists. split; [reflexivity|]. cbn.
      apply elem_of_union. by right.
    + rewrite lookup_alter_ne by done. eauto.
Qed.

(** X10. A successful [join-room] emits exactly two events: [room-joined]
    to the joining socket alone, then [user-joined] to the sockets of
    the room, the joining socket among them.  Both carry the user list
    as the join has left it, and [room-joined] the room's direction. *)
Theorem joinRoom_notifies
    (socketId roomCode userName : string) (s : Server) (sock : Socket)
    (ref : Ref) (room : Room) :
  getRoom s roomCode = Some (ref, room) ->
  sockets s !! socketId = Some sock ->
  exists room' to,
    getRoom (joinRoom socketId roomCode userName s) roomCode = Some (ref, room') /\
    outbox (joinRoom socketId roomCode userName s)
      = outbox s ++
        [mkEmission {[socketId]}
           (room_joined roomCode (translationDirection room) (users room'));
         mkEmission to (user_joined socketId userName (users room'))] /\
    to = members (joinRoom socketId roomCode userName s) roomCode /\
    socketId ∈ to /\
    (forall other, other ∈ members s roomCode -> other ∈ to).
Proof.
  intros Hget Hsock.
  pose proof (joinRoom_getRoom socketId roomCode userName s ref room Hget) as Hjoined.
  eexists. eexists. split; [exact Hjoined|].
  unfold joinRoom. rewrite Hget. cbn. split; [by rewrite <- app_assoc|].
  split; [reflexivity|].
  pose proof (joinRoom_members socketId roomCode userName s sock ref room Hget Hsock)
    as Hmem.
  unfold joinRoom in Hmem. rewrite Hget in Hmem. exact Hmem.
Qed.

Lemma joinRoom_notifies_witness :
  exists room' to,
    getRoom (joinRoom "s9" "550000" "Z" (connection "s9" lobbyServer)) "550000"
      = Some (0%nat, room') /\
    outbox (joinRoom "s9" "550000" "Z" (connection "s9" lobbyServer))
      = outbox (connection "s9" lobbyServer) ++
        [mkEmission {["s9"]} (room_joined "550000" (VString "en-to-hi") (users room'));
         mkEmission to (user_joined "s9" "Z" (users room'))] /\
    "s9" ∈ to.
Proof.
  destruct (joinRoom_notifies "s9" "550000" "Z" (connection "s9" lobbyServer)
              (mkSocket None ∅) 0%nat lobbyRoom)
    as (room' & to & Hget & Hout & _ & Hin & _).
  - vm_compute. reflexivity.
  - apply lookup_insert_eq.
  - exists room', to. split; [exact Hget|]. split; [exact Hout | exact Hin].
Defined.

(** X11. Who gets a translation is decided when the translation is
    delivered, not when the speech arrives: a socket that joined the
    room while the translation was in flight receives it, and a socket
    that disconnected in the meantime does not. *)
Theorem delivery_follows_membership
    (speaker listener roomCode userName text translated : string) (s : Server)
    (sock : Socket) (ref : Ref) (room : Room) :
  getRoom s roomCode = Some (ref, room) ->
  sockets s !! listener = Some sock ->
  listener <> speaker ->
  (exists to,
     outbox (deliver speaker roomCode text (Some translated)
               (joinRoom listener roomCode userName s))
       = outbox (joinRoom listener roomCode userName s)
         ++ [mkEmission to (translated_speech text translated speaker)] /\
     listener ∈ to) /\
  (exists to,
     outbox (deliver speaker roomCode text (Some translated) (disconnect listener s))
       = outbox (disconnect listener s)
         ++ [mkEmission to (translated_speech text translated speaker)] /\
     listener ∉ to).
Proof.
  intros Hget Hsock Hne. split.
  - eexists. split; [reflexivity|].
    destruct (joinRoom_members listener roomCode userName s sock ref room Hget Hsock)
      as [Hin _].
    apply elem_of_difference. split; [exact Hin|].
    intros Heq. apply elem_of_singleton in Heq. by apply Hne.
  - eexists. split; [reflexivity|]. intros Hin.
    apply elem_of_difference in Hin as [Hin _].
    apply elem_of_members in Hin as (k & Hk & _).
    assert (sockets (disconnect listener s) = delete listener (sockets s)) as Hdel.
    { unfold disconnect. rewrite Hsock.
      destruct (currentRoom sock) as [c|]; [|reflexivity].
      destruct (getRoom _ c) as [[r0 rm]|]; [|reflexivity].
      destruct (findIndex _ _) as [i|]; [|reflexivity].
      by destruct (users rm !! i). }
    rewrite Hdel, lookup_delete_eq in Hk. discriminate.
Qed.

Lemma delivery_follows_membership_witness :
  exists to,
    outbox (deliver "s1" "550000" "Hello" (Some "namaste")
              (joinRoom "s9" "550000" "Z" (connection "s9" lobbyServer)))
      = outbox (joinRoom "s9" "550000" "Z" (connection "s9" lobbyServer))
        ++ [mkEmission to (translated_speech "Hello" "namaste" "s1")] /\
    "s9" ∈ to.
Proof.
  refine (proj1 (delivery_follows_membership "s1" "s9" "550000" "Z" "Hello" "namaste"
                   (connection "s9" lobbyServer) (mkSocket None ∅) 0%nat lobbyRoom
                   _ _ _)).
  - vm_compute. reflexivity.
  - apply lookup_insert_eq.
  - discriminate.
Defined.

(** ** Creating rooms *)

(** X12. [create-room] followed by [check-room] with the returned code
    answers [exists: true], whatever the store held; for every other
    code the answer is what it was before. *)
Theorem createRoom_then_checkRoom (rnd : Q) (direction : Value) (s : Server) :
  checkRoom (createRoom rnd direction s).2 (createRoom rnd direction s).1 = true /\
  (forall other, other <> (createRoom rnd direction s).2 ->
     checkRoom other (createRoom rnd direction s).1 = checkRoom other s).
Proof.
  split.
  - apply checkRoom_true. cbn. rewrite lookup_insert_eq. eauto.
  - intros other Hne. unfold checkRoom. cbn in *.
    by rewrite lookup_insert_ne.
Qed.

(** X13. In a well-formed server [create-room] leaves every room stored
    under another code exactly as it is (same room object, same users);
    when the generated code is new the store grows by one room. *)
Theorem createRoom_keeps_other_rooms (rnd : Q) (direction : Value) (s : Server) :
  wellFormed s ->
  (forall other, other <> generateRoomCode rnd ->
     getRoom (createRoom rnd direction s).1 other = getRoom s other) /\
  (rooms s !! generateRoomCode rnd = None ->
     size (rooms (createRoom rnd direction s).1) = S (size (rooms s))).
Proof.
  intros (Hvalid & _ & _). split.
  - intros other Hne. unfold getRoom. cbn. rewrite lookup_insert_ne by done.
    destruct (rooms s !! other) as [ref|] eqn:Hother; [|reflexivity].
    rewrite lookup_app_l; [reflexivity|]. by eapply Hvalid.
  - intros Hfresh. cbn. by apply map_size_insert_None.
Qed.

Lemma createRoom_keeps_other_rooms_witness :
  getRoom (createRoom (1 # 4) VNull lobbyServer).1 "550000" = getRoom lobbyServer "550000".
Proof.
  refine (proj1 (createRoom_keeps_other_rooms (1 # 4) VNull lobbyServer _) "550000" _).
  - exact (run_wellFormed lobby initial initial_wellFormed).
  - vm_compute. discriminate.
Defined.

(** X14. The long grace timer looks the room up by code when it fires:
    a room created under a code for which such a timer is still pending
    is deleted by it as long as it has no users, although it is not the
    room the timer was set for. *)
Theorem long_grace_deletes_new_room_under_code
    (rnd : Q) (direction : Value) (s : Server) :
  checkRoom (generateRoomCode rnd)
    (emptyRoomCheck (generateRoomCode rnd) (createRoom rnd direction s).1) = false.
Proof.
  apply checkRoom_false. unfold emptyRoomCheck.
  rewrite createRoom_getRoom. cbn. apply lookup_delete_eq.
Qed.

(** X15. The departure check works on the room object it captured at
    disconnect time: when a room has since been created anew under the
    code, the check leaves the new room untouched (no user removed, no
    field changed). *)
Theorem departure_check_spares_new_room
    (rnd : Q) (direction : Value) (s : Server) (old : Ref) (oldRoom : Room)
    (userIndex : nat) (userName socketId : string) :
  heap s !! old = Some oldRoom ->
  getRoom
    (departureCheck old (generateRoomCode rnd) userIndex userName socketId
       (createRoom rnd direction s).1)
    (generateRoomCode rnd)
  = Some (length (heap s), mkRoom direction [] (clock s) (clock s)).
Proof.
  intros Hold. pose proof (lookup_lt_Some _ _ _ Hold) as Hlt.
  apply getRoom_Some.
  assert (Hfresh : (heap s ++ [mkRoom direction [] (clock s) (clock s)]) !! length (heap s)
                   = Some (mkRoom direction [] (clock s) (clock s))).
  { rewrite lookup_app_r by lia. by rewrite Nat.sub_diag. }
  unfold departureCheck. cbn. rewrite lookup_app_l by lia. rewrite Hold.
  destruct (reconnected _ _ _).
  - cbn. split; [apply lookup_insert_eq | exact Hfresh].
  - destruct (length _ =? 0)%nat; cbn;
      (split; [apply lookup_insert_eq|]; rewrite list_lookup_insert_ne by lia; exact Hfresh).
Qed.

Lemma departure_check_spares_new_room_witness :
  getRoom
    (departureCheck 0%nat (generateRoomCode (1 # 2)) 0%nat "A" "s1"
       (createRoom (1 # 2) VNull lastUserGone).1)
    (generateRoomCode (1 # 2))
  = Some (length (heap lastUserGone),
          mkRoom VNull [] (clock lastUserGone) (clock lastUserGone)).
Proof.
  refine (departure_check_spares_new_room (1 # 2) VNull lastUserGone 0%nat
            (mkRoom (VString "en-to-hi") [mkUser "s1" "A"] 0 1000) 0%nat "A" "s1" _).
  vm_compute. reflexivity.
Defined.

(** ** What inputs and callbacks never do *)

(** X16. In every state the server can reach from start-up, whatever
    the requests, socket events and their timing: no room lists a user
    name twice, every stored code points to a room object, and no room
    object is stored under two codes. *)
Theorem reachable_states_well_formed (trace : list (Z * Input)) :
  (forall r, r ∈ heap (run trace initial).1 -> NoDup (name <$> users r)) /\
  (forall code ref, rooms (run trace initial).1 !! code = Some ref ->
                    is_Some (heap (run trace initial).1 !! ref)) /\
  (forall c1 c2 ref, rooms (run trace initial).1 !! c1 = Some ref ->
                     rooms (run trace initial).1 !! c2 = Some ref -> c1 = c2).
Proof.
  destruct (run_wellFormed trace initial initial_wellFormed) as (Hvalid & Hinj & Hnames).
  split; [|split].
  - by apply Forall_forall.
  - intros code ref Hcode. apply lookup_lt_is_Some. by eapply Hvalid.
  - exact Hinj.
Qed.

(** Room objects are never dropped from the heap by an input, and keep
    their direction, creation time and user names in order. *)
Lemma handle_heap_grows (i : Input) (s : Server) :
  (forall code, is_Some (rooms s !! code) -> is_Some (rooms (handle i s).1 !! code)) /\
  (forall ref r, heap s !! ref = Some r ->
     exists r',
       heap (handle i s).1 !! ref = Some r' /\
       (name <$> users r) `prefix_of` (name <$> users r') /\
       translationDirection r' = translationDirection r /\
       createdAt r' = createdAt r).
Proof.
  assert (Hupd : forall ref0 r0 r1 (h : list Room),
            h !! ref0 = Some r0 ->
            (name <$> users r0) `prefix_of` (name <$> users r1) ->
            translationDirection r1 = translationDirection r0 ->
            createdAt r1 = createdAt r0 ->
            forall ref r, h !! ref = Some r ->
              exists r', <[ref0 := r1]> h !! ref = Some r' /\
                (name <$> users r) `prefix_of` (name <$> users r') /\
                translationDirection r' = translationDirection r /\
                createdAt r' = createdAt r).
  { intros ref0 r0 r1 h H0 Hpre Hdir Hcre ref r Hr.
    destruct (decide (ref0 = ref)) as [->|Hne].
    - assert (r0 = r) as -> by congruence.
      exists r1. split; [by eapply heap_insert_lookup | done].
    - exists r. by rewrite list_lookup_insert_ne. }
  assert (Hid : forall (h : list Room) ref r, h !! ref = Some r ->
            exists r', h !! ref = Some r' /\
              (name <$> users r) `prefix_of` (name <$> users r') /\
              translationDirection r' = translationDirection r /\
              createdAt r' = createdAt r) by (intros h ref r Hr; by exists r).
  split.
  - intros code Hcode. destruct i; cbn; try exact Hcode.
    + destruct (decide (generateRoomCode rnd = code)) as [->|Hne].
      * rewrite lookup_insert_eq. eauto.
      * by rewrite lookup_insert_ne.
    + by destruct (connected _ s).
    + destruct (connected _ s); [|exact Hcode]. unfold joinRoom.
      by destruct (getRoom s roomCode) as [[ref room]|].
    + destruct (connected _ s); [|exact Hcode]. unfold heartbeat.
      by destruct (getRoom s roomCode) as [[ref room]|].
    + destruct (connected _ s); [|exact Hcode]. unfold speechData.
      destruct (getRoom s roomCode) as [[ref room]|]; [|exact Hcode].
      destruct (decide _); cbn; by destruct (completion _).
    + unfold disconnect. destruct (sockets s !! socketId) as [sock|]; [|exact Hcode].
      destruct (currentRoom sock) as [c|]; [|exact Hcode].
      destruct (getRoom _ c) as [[ref room]|]; [|exact Hcode].
      destruct (findIndex _ _) as [k|]; [|exact Hcode].
      by destruct (users room !! k).
  - intros ref r Hr. destruct i; cbn.
    + exists r. split; [|done]. rewrite lookup_app_l; [exact Hr|].
      by eapply lookup_lt_Some.
    + by apply Hid.
    + destruct (connected _ s); by apply Hid.
    + destruct (connected _ s); [|by apply Hid]. unfold joinRoom.
      destruct (getRoom s roomCode) as [[ref0 room]|] eqn:Hget; [|by apply Hid].
      apply getRoom_Some in Hget as [_ Href0]. cbn.
      eapply Hupd; [exact Href0 | | reflexivity | reflexivity | exact Hr]. cbn.
      destruct (findIndex _ (users room)).
      * by rewrite names_alter_id.
      * rewrite fmap_app. by apply prefix_app_r.
    + destruct (connected _ s); [|by apply Hid]. unfold heartbeat.
      destruct (getRoom s roomCode) as [[ref0 room]|] eqn:Hget; [|by apply Hid].
      apply getRoom_Some in Hget as [_ Href0]. cbn.
      by eapply Hupd; [exact Href0 | | | | exact Hr].
    + destruct (connected _ s); [|by apply Hid]. unfold speechData.
      destruct (getRoom s roomCode) as [[ref0 room]|] eqn:Hget; [|by apply Hid].
      apply getRoom_Some in Hget as [_ Href0].
      assert (exists r', <[ref0 := set_lastActivity (clock s) room]> (heap s) !! ref
                         = Some r' /\
                (name <$> users r) `prefix_of` (name <$> users r') /\
                translationDirection r' = translationDirection r /\
                createdAt r' = createdAt r) as Hgoal
        by (by eapply Hupd; [exact Href0 | | | | exact Hr]).
      destruct (decide _); cbn; by destruct (completion _).
    + unfold disconnect. destruct (sockets s !! socketId) as [sock|]; [|by apply Hid].
      destruct (currentRoom sock) as [c|]; [|by apply Hid].
      destruct (getRoom _ c) as [[ref0 room]|]; [|by apply Hid].
      destruct (findIndex _ _) as [k|]; [|by apply Hid].
      destruct (users room !! k); by apply Hid.
Qed.

(** Only [create-room] rebinds a code, and only the code it generates. *)
Lemma handle_rooms_lookup (i : Input) (s : Server) (code : string) :
  (forall rnd direction, i = PostCreateRoom rnd direction -> generateRoomCode rnd <> code) ->
  rooms (handle i s).1 !! code = rooms s !! code.
Proof.
  intros Hfresh. destruct i; cbn; try reflexivity.
  - rewrite lookup_insert_ne; [reflexivity | by eapply Hfresh].
  - by destruct (connected _ s).
  - destruct (connected _ s); [|reflexivity]. unfold joinRoom.
    by destruct (getRoom s roomCode) as [[ref room]|].
  - destruct (connected _ s); [|reflexivity]. unfold heartbeat.
    by destruct (getRoom s roomCode) as [[ref room]|].
  - destruct (connected _ s); [|reflexivity]. unfold speechData.
    destruct (getRoom s roomCode) as [[ref room]|]; [|reflexivity].
    destruct (decide _); cbn; by destruct (completion _).
  - unfold disconnect. destruct (sockets s !! socketId) as [sock|]; [|reflexivity].
    destruct (currentRoom sock) as [c|]; [|reflexivity].
    destruct (getRoom _ c) as [[ref room]|]; [|reflexivity].
    destruct (findIndex _ _) as [k|]; [|reflexivity].
    by destruct (users room !! k).
Qed.

(** X17. A request or socket event removes a room or a user in one case
    only, a [create-room] whose generated code is already in use.  After
    any input every stored code is still stored.  After any input other
    than a [create-room] that generates the very code, the code still
    names the same room object, with its direction and creation time and
    its user names in order, with at most new names after them.  After a
    [create-room] that generates a code in use, the code names a new room
    object without users.  Apart from that, rooms and users only go away
    in timer callbacks. *)
Theorem inputs_never_remove (i : Input) (s : Server) :
  (forall code, is_Some (rooms s !! code) -> is_Some (rooms (handle i s).1 !! code)) /\
  (forall code ref r,
     getRoom s code = Some (ref, r) ->
     (forall rnd direction,
        i = PostCreateRoom rnd direction -> generateRoomCode rnd <> code) ->
     exists r',
       getRoom (handle i s).1 code = Some (ref, r') /\
       (name <$> users r) `prefix_of` (name <$> users r') /\
       translationDirection r' = translationDirection r /\
       createdAt r' = createdAt r) /\
  (forall code ref r rnd direction,
     getRoom s code = Some (ref, r) ->
     i = PostCreateRoom rnd direction -> generateRoomCode rnd = code ->
     exists ref',
       ref' <> ref /\
       getRoom (handle i s).1 code
       = Some (ref', mkRoom direction [] (clock s) (clock s))).
Proof.
  destruct (handle_heap_grows i s) as [Hcodes Hheap].
  split; [exact Hcodes|]. split.
  - intros code ref r Hget Hfresh.
    apply getRoom_Some in Hget as [Hcode Href].
    destruct (Hheap ref r Href) as (r' & Hr' & Hrest).
    exists r'. split; [|exact Hrest].
    apply getRoom_Some. split; [|exact Hr'].
    by rewrite handle_rooms_lookup.
  - intros code ref r rnd direction Hget -> <-.
    apply getRoom_Some in Hget as [_ Href].
    exists (length (heap s)). split.
    + apply lookup_lt_Some in Href. lia.
    + apply createRoom_getRoom.
Qed.

(** X18. No timer callback ever adds a room or a user or refreshes a
    room: after a departure check, a long grace check, a delivery or a
    cleanup run, every stored code was stored before under the same room
    object, and every room object has its direction, its timestamps and
    a sublist of its users. *)
Theorem callbacks_never_add (t : Timer) (s : Server) :
  (forall code ref, rooms (fire t s) !! code = Some ref -> rooms s !! code = Some ref) /\
  (forall ref r, heap s !! ref = Some r ->
     exists r',
       heap (fire t s) !! ref = Some r' /\
       users r' `sublist_of` users r /\
       translationDirection r' = translationDirection r /\
       createdAt r' = createdAt r /\
       lastActivity r' = lastActivity r).
Proof.
  split.
  - intros code ref Hcode.
    destruct (fire_rooms_shrink t s code) as [H|H]; congruence.
  - intros ref r Hr.
    assert (Hid : forall (h : list Room), h !! ref = Some r ->
              exists r', h !! ref = Some r' /\ users r' `sublist_of` users r /\
                translationDirection r' = translationDirection r /\
                createdAt r' = createdAt r /\ lastActivity r' = lastActivity r)
      by (intros h Hh; by exists r).
    destruct t as [room c userIndex userName socketId|c|socketId c text tr|]; cbn.
    + unfold departureCheck. destruct (heap s !! room) as [r0|] eqn:Hroom; [|by apply Hid].
      destruct (reconnected _ _ _); [by apply Hid|].
      assert (exists r',
                <[room := set_users (delete userIndex (users r0)) r0]> (heap s) !! ref
                = Some r' /\ users r' `sublist_of` users r /\
                translationDirection r' = translationDirection r /\
                createdAt r' = createdAt r /\ lastActivity r' = lastActivity r) as Hgoal.
      { destruct (decide (room = ref)) as [->|Hne].
        - assert (r0 = r) as -> by congruence.
          eexists. split; [by eapply heap_insert_lookup|]. cbn.
          split; [apply sublist_delete | done].
        - rewrite list_lookup_insert_ne by done. by apply Hid. }
      by destruct (length _ =? 0)%nat.
    + unfold emptyRoomCheck. destruct (getRoom s c) as [[ref' r']|]; [|by apply Hid].
      destruct (length _ =? 0)%nat; by apply Hid.
    + destruct tr; by apply Hid.
    + by apply Hid.
Qed.

(** ** The gateway's retries *)

(** X19. When the remote call first succeeds at the attempt numbered
    [k] (0, 1 or 2) after [k] failures, [translateText] returns the
    response text without the white space at its ends (the Unicode white
    space of [String.prototype.trim], not only the ASCII one) after
    exactly [k + 1] requests, all with the same prompt.  It sleeps
    1000 ms after the first failure and 2000 ms after the second, and
    nothing after the success: its effects are the first [2 * k + 1] of
    request, 1000 ms, request, 2000 ms, request; and it takes the
    remote's time for the [k + 1] requests plus the waits. *)
Theorem translateText_succeeds_after_retries
    (remote : Remote) (text fromLang toLang translation : string) (k : nat) :
  (k < maxRetries)%nat ->
  (forall j, (j < k)%nat -> exists errorMessage, outcome (remote j) = Rejected errorMessage) ->
  outcome (remote k) = Resolved translation ->
  completion (translateText remote text fromLang toLang)
    = Returned (Some (trim translation)) /\
  effects (translateText remote text fromLang toLang)
    = take (2 * k + 1)
        [Generate (prompt text fromLang toLang); Sleep 1000;
         Generate (prompt text fromLang toLang); Sleep 2000;
         Generate (prompt text fromLang toLang)] /\
  attempts (translateText remote text fromLang toLang) = S k /\
  waited (translateText remote text fromLang toLang)
    = 500 * Z.of_nat k * (Z.of_nat k + 1) /\
  elapsed (translateText remote text fromLang toLang)
    = remoteTime remote (S k) + waited (translateText remote text fromLang toLang).
Proof.
  unfold maxRetries. intros Hk Hfail Hok.
  unfold translateText, attempts, waited, remoteTime.
  destruct k as [|[|[|k]]]; [| | |lia].
  - cbn. rewrite Hok. cbn. repeat split; lia.
  - destruct (Hfail 0%nat) as [m0 H0]; [lia|].
    cbn. rewrite H0. cbn. rewrite Hok. cbn. repeat split; lia.
  - destruct (Hfail 0%nat) as [m0 H0]; [lia|]. destruct (Hfail 1%nat) as [m1 H1]; [lia|].
    cbn. rewrite H0. cbn. rewrite H1. cbn. rewrite Hok. cbn. repeat split; lia.
Qed.

Lemma translateText_succeeds_after_retries_witness :
  completion (translateText busyOnce "Hello" "English" "Hindi")
    = Returned (Some "namaste") /\
  effects (translateText busyOnce "Hello" "English" "Hindi")
    = [Generate (prompt "Hello" "English" "Hindi"); Sleep 1000;
       Generate (prompt "Hello" "English" "Hindi")] /\
  elapsed (translateText busyOnce "Hello" "English" "Hindi") = 1100.
Proof.
  destruct (translateText_succeeds_after_retries busyOnce "Hello" "English" "Hindi"
              (noBreakSpace +:+ "namaste" +:+ ideographicSpace) 1%nat)
    as (Hc & He & _ & Hw & Ht).
  - unfold maxRetries. lia.
  - intros j Hj. exists "busy". assert (j = 0%nat) as -> by lia. reflexivity.
  - reflexivity.
  - split; [exact Hc|]. split; [exact He|]. rewrite Ht, Hw. reflexivity.
Defined.

(** X20. Whatever the remote model does, one call of [translateText]
    makes at least one and at most three requests, all with the same
    prompt, waits at most 3000 ms between them in total, takes the
    remote's time for those requests plus the waits, and returns a
    string. *)
Theorem translateText_is_bounded (remote : Remote) (text fromLang toLang : string) :
  (1 <= attempts (translateText remote text fromLang toLang) <= 3)%nat /\
  0 <= waited (translateText remote text fromLang toLang) <= 3000 /\
  elapsed (translateText remote text fromLang toLang)
    = remoteTime remote (attempts (translateText remote text fromLang toLang))
      + waited (translateText remote text fromLang toLang) /\
  Forall (fun e => match e with
                   | Generate p => p = prompt text fromLang toLang
                   | Sleep ms => ms = 1000 \/ ms = 2000
                   end)
         (effects (translateText remote text fromLang toLang)) /\
  exists translated,
    completion (translateText remote text fromLang toLang) = Returned (Some translated).
Proof.
  unfold translateText, attempts, waited, remoteTime. cbn.
  destruct (outcome (remote 0%nat)); cbn;
    [|destruct (outcome (remote 1%nat)); cbn;
      [|destruct (outcome (remote 2%nat)); cbn]].
  all: split; [lia|]; split; [lia|]; split; [lia|]; split;
    [repeat (apply Forall_cons; split; [first [reflexivity | by left | by right]|]);
     constructor
    | eexists; reflexivity].
Qed.

(** ** The text the gateway returns *)

Lemma trimStart_unpadded (s : string) : startsWithSpace (trimStart s) = false.
Proof.
  assert (H : forall n s, (String.length s <= n)%nat ->
                          startsWithSpace (trimStart s) = false);
    [|by apply (H (String.length s))].
  clear s. induction n as [|n IH]; intros [|c1 s1] Hlen; try reflexivity.
  { cbn in Hlen. lia. }
  cbn in Hlen. cbn [trimStart].
  destruct (isSpace c1) eqn:Hc1; [apply IH; lia|].
  destruct s1 as [|c2 s2]; [exact Hc1|]. cbn in Hlen.
  destruct (isSpace2 c1 c2); [apply IH; lia|].
  destruct s2 as [|c3 s3]; [exact Hc1|]. cbn in Hlen.
  destruct (isSpace3 c1 c2 c3); [apply IH; lia | exact Hc1].
Qed.

Lemma allSpace_space (c : ascii) (s : string) :
  isSpace c = true -> allSpace (String c s) = allSpace s.
Proof. intros Hc. cbn [allSpace]. by rewrite Hc. Qed.

Lemma trimEnd_unpadded (s : string) : endsWithSpace (trimEnd s) = false.
Proof.
  induction s as [|c s IH]; [reflexivity|]. cbn [trimEnd].
  destruct (allSpace (String c s)) eqn:Hall; [reflexivity|].
  destruct (trimEnd s) as [|d t] eqn:Ht; [|exact IH].
  cbn. destruct (isSpace c) eqn:Hc; [|reflexivity].
  rewrite (allSpace_space c s Hc) in Hall.
  destruct s as [|e s]; [discriminate Hall|].
  cbn [trimEnd] in Ht. rewrite Hall in Ht. discriminate Ht.
Qed.

Lemma trimEnd_keeps_start (s : string) :
  startsWithSpace s = false -> startsWithSpace (trimEnd s) = false.
Proof.
  destruct s as [|c s]; [done|]. intros Hc. cbn [trimEnd].
  destruct (allSpace (String c s)); [reflexivity | exact Hc].
Qed.

Lemma endsWithSpace_app_char (s : string) (c : ascii) :
  endsWithSpace (s +:+ String c EmptyString) = isSpace c.
Proof.
  induction s as [|d s IH]; [reflexivity|].
  change (String d s +:+ String c EmptyString) with (String d (s +:+ String c EmptyString)).
  cbn [endsWithSpace]. destruct (s +:+ String c EmptyString) eqn:Happ; [|exact IH].
  destruct s; discriminate Happ.
Qed.

(** X21. The string [translateText] returns never starts or ends with
    white space, whatever the remote model answers: a response text is
    trimmed, and the placeholder is enclosed in brackets. *)
Theorem translateText_result_unpadded
    (remote : Remote) (text fromLang toLang : string) :
  exists translated,
    completion (translateText remote text fromLang toLang) = Returned (Some translated) /\
    startsWithSpace translated = false /\
    endsWithSpace translated = false.
Proof.
  assert (Htrim : forall t, startsWithSpace (trim t) = false /\ endsWithSpace (trim t) = false).
  { intros t. unfold trim. split.
    - apply trimEnd_keeps_start, trimStart_unpadded.
    - apply trimEnd_unpadded. }
  assert (Hph : forall m, startsWithSpace (unavailable m) = false /\
                          endsWithSpace (unavailable m) = false).
  { intros m. unfold unavailable. split; [reflexivity|].
    assert (Hassoc : forall a b c : string, a +:+ (b +:+ c) = (a +:+ b) +:+ c).
    { intros a b c. induction a as [|x a IH]; [reflexivity|].
      change (String x (a +:+ (b +:+ c)) = String x ((a +:+ b) +:+ c)).
      by rewrite IH. }
    rewrite Hassoc. apply endsWithSpace_app_char. }
  unfold translateText. cbn.
  destruct (outcome (remote 0%nat)); cbn; [eexists; split; [reflexivity | apply Htrim]|].
  destruct (outcome (remote 1%nat)); cbn; [eexists; split; [reflexivity | apply Htrim]|].
  destruct (outcome (remote 2%nat)); cbn; eexists; (split; [reflexivity|]);
    [apply Htrim | apply Hph].
Qed.

(** ** Room codes *)

Ltac digit_cases k H :=
  let E := fresh "E" in
  assert (E : k = 0 \/ k = 1 \/ k = 2 \/ k = 3 \/ k = 4 \/ k = 5 \/ k = 6 \/ k = 7 \/
              k = 8 \/ k = 9) by lia;
  destruct E as [->|[->|[->|[->|[->|[->|[->|[->|[->| ->]]]]]]]]].

Lemma of_uint_acc_value (l : Decimal.uint) (acc : positive) :
  Z.pos (Pos.of_uint_acc l acc) = valueOf l (Z.pos acc).
Proof.
  revert acc. induction l as [|l IH|l IH|l IH|l IH|l IH|l IH|l IH|l IH|l IH|l IH];
    intros acc; cbn [Pos.of_uint_acc valueOf]; [reflexivity|..];
    rewrite IH; f_equal; lia.
Qed.

Lemma valueOf_digit (k : Z) (l : Decimal.uint) (acc : Z) :
  0 <= k <= 9 -> valueOf (digit k l) acc = valueOf l (10 * acc + k).
Proof.
  intros Hk. digit_cases k Hk; cbn [digit valueOf]; try reflexivity.
  by rewrite Z.add_0_r.
Qed.

Lemma length_digit (k : Z) (l : Decimal.uint) :
  0 <= k <= 9 ->
  String.length (NilEmpty.string_of_uint (digit k l))
  = S (String.length (NilEmpty.string_of_uint l)).
Proof. intros Hk. digit_cases k Hk; reflexivity. Qed.

(** A number with six digits is printed as its six digits. *)
Lemma to_int_sixDigits (n : Z) :
  100000 <= n <= 999999 -> Z.to_int n = Decimal.Pos (sixDigits n).
Proof.
  intros Hn.
  assert (H5 : 1 <= n / 100000 <= 9) by (Z.div_mod_to_equations; lia).
  assert (H4 : 0 <= n / 10000 mod 10 <= 9) by (pose proof (Z.mod_pos_bound (n / 10000) 10); pose proof (Z.mod_pos_bound (n / 1000) 10); pose proof (Z.mod_pos_bound (n / 100) 10); pose proof (Z.mod_pos_bound (n / 10) 10); pose proof (Z.mod_pos_bound n 10); lia).
  assert (H3 : 0 <= n / 1000 mod 10 <= 9) by (pose proof (Z.mod_pos_bound (n / 10000) 10); pose proof (Z.mod_pos_bound (n / 1000) 10); pose proof (Z.mod_pos_bound (n / 100) 10); pose proof (Z.mod_pos_bound (n / 10) 10); pose proof (Z.mod_pos_bound n 10); lia).
  assert (H2 : 0 <= n / 100 mod 10 <= 9) by (pose proof (Z.mod_pos_bound (n / 10000) 10); pose proof (Z.mod_pos_bound (n / 1000) 10); pose proof (Z.mod_pos_bound (n / 100) 10); pose proof (Z.mod_pos_bound (n / 10) 10); pose proof (Z.mod_pos_bound n 10); lia).
  assert (H1 : 0 <= n / 10 mod 10 <= 9) by (pose proof (Z.mod_pos_bound (n / 10000) 10); pose proof (Z.mod_pos_bound (n / 1000) 10); pose proof (Z.mod_pos_bound (n / 100) 10); pose proof (Z.mod_pos_bound (n / 10) 10); pose proof (Z.mod_pos_bound n 10); lia).
  assert (H0 : 0 <= n mod 10 <= 9) by (pose proof (Z.mod_pos_bound (n / 10000) 10); pose proof (Z.mod_pos_bound (n / 1000) 10); pose proof (Z.mod_pos_bound (n / 100) 10); pose proof (Z.mod_pos_bound (n / 10) 10); pose proof (Z.mod_pos_bound n 10); lia).
  assert (Hvalue : Z.of_int (Decimal.Pos (sixDigits n)) = n).
  { unfold sixDigits.
    set (rest := digit (n / 10000 mod 10) _).
    assert (Hhead : forall d5, 1 <= d5 <= 9 ->
              Z.of_int (Decimal.Pos (digit d5 rest)) = valueOf rest d5).
    { intros d5 Hd5.
      digit_cases d5 Hd5; cbn [digit Z.of_int Z.of_uint Pos.of_uint Z.of_N];
        try apply of_uint_acc_value. lia. }
    rewrite (Hhead _ H5). unfold rest.
    rewrite !valueOf_digit by assumption. cbn [valueOf].
    pose proof (Z.div_div n 10 10). pose proof (Z.div_div n 100 10).
    pose proof (Z.div_div n 1000 10). pose proof (Z.div_div n 10000 10).
    pose proof (Z.div_mod n 10). pose proof (Z.div_mod (n / 10) 10).
    pose proof (Z.div_mod (n / 100) 10). pose proof (Z.div_mod (n / 1000) 10).
    pose proof (Z.div_mod (n / 10000) 10).
    change (10 * 10) with 100 in *. change (100 * 10) with 1000 in *.
    change (1000 * 10) with 10000 in *. change (10000 * 10) with 100000 in *.
    lia. }
  rewrite <- Hvalue at 1. rewrite DecimalZ.to_of. unfold sixDigits.
  generalize (n / 100000) H5. intros d5 Hd5.
  digit_cases d5 Hd5; try reflexivity. lia.
Qed.

Lemma roundTiesEven_floor (x : Q) :
  Qfloor x <= roundTiesEven x <= Qfloor x + 1.
Proof.
  unfold roundTiesEven. destruct (_ ?= _)%Q; [destruct (Z.even _)| |]; lia.
Qed.

Lemma roundTiesEven_ge (x : Q) (n : Z) :
  (inject_Z n <= x)%Q -> n <= roundTiesEven x.
Proof.
  intros H. apply Qfloor_resp_le in H. rewrite Qfloor_Z in H.
  pose proof (roundTiesEven_floor x). lia.
Qed.

Lemma roundTiesEven_lt_half (x : Q) (n : Z) :
  (x < inject_Z n + (1 # 2))%Q -> roundTiesEven x <= n.
Proof.
  intros H. pose proof (roundTiesEven_floor x) as Hf.
  destruct (Z_lt_le_dec (Qfloor x) n) as [Hlt|Hge]; [lia|].
  assert (Hfl : (inject_Z (Qfloor x) <= x)%Q) by apply Qfloor_le.
  assert (Hn : (inject_Z n <= inject_Z (Qfloor x))%Q) by (rewrite <- Zle_Qle; exact Hge).
  assert (Heq : Qfloor x = n).
  { assert (Qfloor x < n + 1); [|lia]. rewrite Zlt_Qlt, inject_Z_plus.
    change (inject_Z 1) with 1%Q. lra. }
  unfold roundTiesEven.
  assert ((x - inject_Z (Qfloor x) ?= 1 # 2)%Q = Lt) as ->; [|lia].
  rewrite Heq. apply (proj1 (Qlt_alt _ _)). lra.
Qed.

Lemma roundTiesEven_le (x : Q) (n : Z) :
  (x <= inject_Z n)%Q -> roundTiesEven x <= n.
Proof. intros H. apply roundTiesEven_lt_half. lra. Qed.

Lemma pow2_pos (e : Z) : (0 < 2 ^ e)%Q.
Proof. by apply Qpower_0_lt. Qed.

Lemma pow2_nonneg_exp (e : Z) : 0 <= e -> (2 ^ e == inject_Z (2 ^ e))%Q.
Proof. intros He. by rewrite Zpower_Qpower. Qed.

Lemma pow2_sub (a b : Z) :
  0 <= a -> 0 <= b -> (2 ^ (a - b) == inject_Z (2 ^ a) / inject_Z (2 ^ b))%Q.
Proof.
  intros Ha Hb. rewrite Qpower_minus by done.
  by rewrite !pow2_nonneg_exp.
Qed.

Lemma Qdiv_lt_cross (A B C D : Z) :
  0 < B -> 0 < D -> A * D < C * B ->
  (inject_Z A / inject_Z B < inject_Z C / inject_Z D)%Q.
Proof.
  intros HB HD H. destruct B as [|pb|pb]; try lia. destruct D as [|pd|pd]; try lia.
  unfold Qlt, Qdiv, Qmult, Qinv, inject_Z. cbn. lia.
Qed.

Lemma Qdiv_le_cross (A B C D : Z) :
  0 < B -> 0 < D -> A * D <= C * B ->
  (inject_Z A / inject_Z B <= inject_Z C / inject_Z D)%Q.
Proof.
  intros HB HD H. destruct B as [|pb|pb]; try lia. destruct D as [|pd|pd]; try lia.
  unfold Qle, Qdiv, Qmult, Qinv, inject_Z. cbn. lia.
Qed.

(** [binade] finds the power of two at or below a positive number. *)
Lemma binade_spec (x : Q) :
  (0 < x)%Q -> (2 ^ binade x <= x)%Q /\ (x < 2 ^ (binade x + 1))%Q.
Proof.
  intros Hx. destruct x as [n d].
  assert (Hn : 0 < n) by (unfold Qlt in Hx; cbn in Hx; lia).
  pose proof (Z.log2_spec n Hn) as [Hn1 Hn2].
  pose proof (Z.log2_spec (Z.pos d) (Pos2Z.is_pos d)) as [Hd1 Hd2].
  pose proof (Z.log2_nonneg n) as Ha. pose proof (Z.log2_nonneg (Z.pos d)) as Hb.
  assert (Hp1 : 0 < 2 ^ Z.log2 n) by (apply Z.pow_pos_nonneg; lia).
  assert (Hp2 : 0 < 2 ^ Z.log2 (Z.pos d)) by (apply Z.pow_pos_nonneg; lia).
  rewrite !Z.pow_succ_r in * by assumption.
  assert (Hx' : (n # d == inject_Z n / inject_Z (Z.pos d))%Q) by apply Qmake_Qdiv.
  assert (Hup : (n # d < 2 ^ (Z.log2 n - Z.log2 (Z.pos d) + 1))%Q).
  { replace (Z.log2 n - Z.log2 (Z.pos d) + 1) with (Z.succ (Z.log2 n) - Z.log2 (Z.pos d))
      by lia.
    rewrite pow2_sub by lia. rewrite Hx'. apply Qdiv_lt_cross; try lia.
    rewrite Z.pow_succ_r by assumption. nia. }
  assert (Hlow : (2 ^ (Z.log2 n - Z.log2 (Z.pos d) - 1) <= n # d)%Q).
  { replace (Z.log2 n - Z.log2 (Z.pos d) - 1) with (Z.log2 n - Z.succ (Z.log2 (Z.pos d)))
      by lia.
    rewrite pow2_sub by lia. rewrite Hx'. apply Qdiv_le_cross; try lia.
    rewrite Z.pow_succ_r by assumption. nia. }
  unfold binade. cbn [Qnum Qden].
  destruct (Qle_bool _ (n # d)) eqn:Hle.
  - apply Qle_bool_iff in Hle. split; [exact Hle | exact Hup].
  - split; [exact Hlow|].
    replace (Z.log2 n - Z.log2 (Z.pos d) - 1 + 1) with (Z.log2 n - Z.log2 (Z.pos d))
      by lia.
    apply Qnot_le_lt. intros H. apply Qle_bool_iff in H. congruence.
Qed.

Lemma binade_lt (x : Q) (m : Z) : (0 < x)%Q -> (x < 2 ^ m)%Q -> binade x < m.
Proof.
  intros Hx Hm. destruct (binade_spec x Hx) as [Hlow _].
  apply (Qpower_lt_compat_l_inv 2); [|reflexivity].
  eapply Qle_lt_trans; [exact Hlow | exact Hm].
Qed.

Lemma binade_ge (x : Q) (m : Z) : (2 ^ m <= x)%Q -> m <= binade x.
Proof.
  intros Hm.
  assert (Hx : (0 < x)%Q) by (eapply Qlt_le_trans; [apply (pow2_pos m) | exact Hm]).
  destruct (binade_spec x Hx) as [_ Hup].
  assert (m < binade x + 1); [|lia].
  apply (Qpower_lt_compat_l_inv 2); [|reflexivity].
  eapply Qle_lt_trans; [exact Hm | exact Hup].
Qed.

Lemma roundDouble_pos (x : Q) :
  (0 < x)%Q -> roundDouble x = (inject_Z (roundTiesEven (x / ulp x)) * ulp x)%Q.
Proof.
  intros Hx. unfold roundDouble.
  assert ((x ?= 0)%Q = Gt) as ->; [|reflexivity].
  by apply (proj1 (Qgt_alt _ _)).
Qed.

Lemma pow2_split (j u : Z) : u <= j -> (2 ^ j == inject_Z (2 ^ (j - u)) * 2 ^ u)%Q.
Proof.
  intros Hu. rewrite <- pow2_nonneg_exp by lia.
  rewrite <- Qpower_plus by done. by replace (j - u + u) with j by lia.
Qed.

(** Rounding never crosses a number that is itself on the grid of the
    doubles around [x]. *)
Lemma roundDouble_le_grid (x : Q) (k j : Z) :
  (0 < x)%Q -> Z.max (binade x) (-1022) - 52 <= j ->
  (x <= inject_Z k * 2 ^ j)%Q -> (roundDouble x <= inject_Z k * 2 ^ j)%Q.
Proof.
  intros Hx Hu Hle. rewrite roundDouble_pos by assumption. unfold ulp.
  set (u := Z.max (binade x) (-1022) - 52) in *.
  pose proof (pow2_pos u) as Hpu.
  rewrite (pow2_split j u Hu) in Hle |- *.
  rewrite Qmult_assoc, <- inject_Z_mult in Hle |- *.
  apply Qmult_le_compat_r; [|by apply Qlt_le_weak].
  rewrite <- Zle_Qle. apply roundTiesEven_le.
  by apply Qle_shift_div_r.
Qed.

Lemma roundDouble_ge_grid (x : Q) (k j : Z) :
  (0 < x)%Q -> Z.max (binade x) (-1022) - 52 <= j ->
  (inject_Z k * 2 ^ j <= x)%Q -> (inject_Z k * 2 ^ j <= roundDouble x)%Q.
Proof.
  intros Hx Hu Hle. rewrite roundDouble_pos by assumption. unfold ulp.
  set (u := Z.max (binade x) (-1022) - 52) in *.
  pose proof (pow2_pos u) as Hpu.
  rewrite (pow2_split j u Hu) in Hle |- *.
  rewrite Qmult_assoc, <- inject_Z_mult in Hle |- *.
  apply Qmult_le_compat_r; [|by apply Qlt_le_weak].
  rewrite <- Zle_Qle. apply roundTiesEven_ge.
  by apply Qle_shift_div_l.
Qed.

(** Below the midpoint between two neighbouring doubles, rounding goes
    down. *)
Lemma roundDouble_lt_half (x : Q) (n : Z) :
  (0 < x)%Q -> (x / ulp x < inject_Z n + (1 # 2))%Q ->
  (roundDouble x <= inject_Z n * ulp x)%Q.
Proof.
  intros Hx Hlt. rewrite roundDouble_pos by assumption.
  apply Qmult_le_compat_r; [|apply Qlt_le_weak, pow2_pos].
  rewrite <- Zle_Qle. by apply roundTiesEven_lt_half.
Qed.

Lemma roundDouble_zero (x : Q) : (x == 0)%Q -> roundDouble x = 0%Q.
Proof.
  intros Hx. unfold roundDouble.
  assert ((x ?= 0)%Q = Eq) as ->; [|reflexivity].
  by apply (proj1 (Qeq_alt _ _)).
Qed.

Lemma binade_between (x : Q) (m : Z) :
  (2 ^ m <= x)%Q -> (x < 2 ^ (m + 1))%Q -> binade x = m.
Proof.
  intros Hlow Hup. pose proof (binade_ge x m Hlow).
  assert (Hx : (0 < x)%Q) by (eapply Qlt_le_trans; [apply (pow2_pos m) | exact Hlow]).
  pose proof (binade_lt x (m + 1) Hx Hup). lia.
Qed.

(** The product [Math.random() * 900000], rounded to a double, stays one
    grid step below 900000 when the draw is at most the largest double
    below 1. *)
Lemma scaled_draw_range (rnd : Q) :
  (0 <= rnd)%Q -> (rnd <= 1 - (1 # 9007199254740992))%Q ->
  (0 <= roundDouble (rnd * 900000))%Q /\
  (roundDouble (rnd * 900000) <= 900000 - (1 # 8589934592))%Q.
Proof.
  intros H0 H1. set (x := (rnd * 900000)%Q).
  assert (Hx0 : (0 <= x)%Q) by (unfold x; lra).
  assert (Hx1 : (x <= 900000 - (900000 # 9007199254740992))%Q) by (unfold x; lra).
  destruct (Qlt_le_dec 0 x) as [Hpos|Hzero].
  - assert (Hb : binade x < 20).
    { apply binade_lt; [assumption|]. change (2 ^ 20)%Q with (1048576 # 1)%Q. lra. }
    split.
    + pose proof (roundDouble_ge_grid x 0 0 Hpos) as H.
      change (inject_Z 0 * 2 ^ 0)%Q with (0 * 1)%Q in H.
      assert (Hg : (0 * 1 <= roundDouble x)%Q) by (apply H; [lia | lra]). lra.
    + destruct (Qlt_le_dec x (2 ^ 19)) as [Hsmall|Hlarge].
      * pose proof (binade_lt x 19 Hpos Hsmall) as Hb'.
        pose proof (roundDouble_le_grid x 7730941132799999 (-33) Hpos) as H.
        change (inject_Z 7730941132799999 * 2 ^ (-33))%Q
          with ((7730941132799999 # 1) * (1 # 8589934592))%Q in H.
        change (2 ^ 19)%Q with (524288 # 1)%Q in Hsmall.
        assert (Hg : (roundDouble x <= (7730941132799999 # 1) * (1 # 8589934592))%Q)
          by (apply H; [lia | lra]).
        lra.
      * assert (Hb' : binade x = 19).
        { apply binade_between; [assumption|].
          change (2 ^ (19 + 1))%Q with (1048576 # 1)%Q. lra. }
        assert (Hu : ulp x = (1 # 8589934592)%Q) by (unfold ulp; rewrite Hb'; reflexivity).
        pose proof (roundDouble_lt_half x 7730941132799999 Hpos) as H.
        rewrite Hu in H. unfold Qdiv in H.
        change (/ (1 # 8589934592))%Q with (8589934592 # 1)%Q in H.
        change (inject_Z 7730941132799999) with (7730941132799999 # 1)%Q in H.
        assert (Hg : (roundDouble x <= (7730941132799999 # 1) * (1 # 8589934592))%Q)
          by (apply H; lra).
        lra.
  - assert (Hx : (x == 0)%Q) by lra.
    rewrite (roundDouble_zero x Hx). split; lra.
Qed.

(** [100000 + p], rounded to a double, stays below one million when the
    scaled draw [p] is a grid step below 900000. *)
Lemma shifted_draw_range (p : Q) :
  (0 <= p)%Q -> (p <= 900000 - (1 # 8589934592))%Q ->
  100000 <= Qfloor (roundDouble (100000 + p)) <= 999999.
Proof.
  intros H0 H1. set (z := (100000 + p)%Q).
  assert (Hz0 : (100000 <= z)%Q) by (unfold z; lra).
  assert (Hz1 : (z <= 1000000 - (1 # 8589934592))%Q) by (unfold z; lra).
  assert (Hpos : (0 < z)%Q) by lra.
  assert (Hb : binade z < 20).
  { apply binade_lt; [assumption|]. change (2 ^ 20)%Q with (1048576 # 1)%Q. lra. }
  pose proof (roundDouble_ge_grid z 100000 0 Hpos) as Hlow.
  change (inject_Z 100000 * 2 ^ 0)%Q with (100000 * 1)%Q in Hlow.
  assert (Hg0 : (100000 * 1 <= roundDouble z)%Q) by (apply Hlow; [lia | lra]).
  pose proof (roundDouble_le_grid z 8589934591999999 (-33) Hpos) as Hup.
  change (inject_Z 8589934591999999 * 2 ^ (-33))%Q
    with ((8589934591999999 # 1) * (1 # 8589934592))%Q in Hup.
  assert (Hg1 : (roundDouble z <= (8589934591999999 # 1) * (1 # 8589934592))%Q)
    by (apply Hup; [lia | lra]).
  split.
  - change 100000 with (Qfloor (inject_Z 100000)) at 1.
    apply Qfloor_resp_le. change (inject_Z 100000) with (100000 # 1)%Q. lra.
  - assert (Qfloor (roundDouble z) < 1000000); [|lia].
    rewrite Zlt_Qlt. pose proof (Qfloor_le (roundDouble z)).
    change (inject_Z 1000000) with (1000000 # 1)%Q. lra.
Qed.

Lemma generated_code_range (rnd : Q) :
  (0 <= rnd)%Q -> (rnd <= 1 - (1 # 9007199254740992))%Q ->
  100000 <= Qfloor (roundDouble (100000 + roundDouble (rnd * 900000))) <= 999999.
Proof.
  intros H0 H1. destruct (scaled_draw_range rnd H0 H1). by apply shifted_draw_range.
Qed.

(** A double below 1 is at most [1 - 2 ^ -53]. *)
Lemma double_below_one (rnd : Q) :
  (roundDouble rnd == rnd)%Q -> (0 <= rnd)%Q -> (rnd < 1)%Q ->
  (rnd <= 1 - (1 # 9007199254740992))%Q.
Proof.
  intros Hd H0 H1. destruct (Qlt_le_dec rnd (1 # 2)) as [Hsmall|Hlarge]; [lra|].
  assert (Hpos : (0 < rnd)%Q) by lra.
  rewrite <- Hd.
  pose proof (roundDouble_le_grid rnd 9007199254740991 (-53) Hpos) as H.
  change (inject_Z 9007199254740991 * 2 ^ (-53))%Q
    with ((9007199254740991 # 1) * (1 # 9007199254740992))%Q in H.
  assert (Hb : binade rnd = -1).
  { apply binade_between.
    - change (2 ^ (-1))%Q with (1 # 2)%Q. exact Hlarge.
    - change (2 ^ (-1 + 1))%Q with 1%Q. exact H1. }
  assert (Hu : ulp rnd = (1 # 9007199254740992)%Q) by (unfold ulp; rewrite Hb; reflexivity).
  pose proof (roundDouble_lt_half rnd 9007199254740991 Hpos) as Hh.
  rewrite Hu in Hh.
  rewrite roundDouble_pos in Hd |- * by assumption. rewrite Hu in Hd |- *.
  set (m := roundTiesEven (rnd / (1 # 9007199254740992))) in *.
  assert (Hm : m < 9007199254740992).
  { rewrite Zlt_Qlt. change (inject_Z 9007199254740992) with (9007199254740992 # 1)%Q. lra. }
  assert (Hm' : (inject_Z m <= inject_Z 9007199254740991)%Q) by (rewrite <- Zle_Qle; lia).
  change (inject_Z 9007199254740991) with (9007199254740991 # 1)%Q in Hm'. lra.
Qed.

(** X22. For every draw that is a double in [[0, 1)] the generated room
    code is a string of exactly six characters that reads back as a
    decimal number between 100000 and 999999, namely the floor of the
    double [100000 + rnd * 900000], where the product and the sum are
    each rounded to the nearest double. *)
Theorem generateRoomCode_six_digits (rnd : Q) :
  (roundDouble rnd == rnd)%Q -> (0 <= rnd)%Q -> (rnd < 1)%Q ->
  100000 <= Qfloor (roundDouble (100000 + roundDouble (rnd * 900000))) <= 999999 /\
  String.length (generateRoomCode rnd) = 6%nat /\
  option_map Z.of_int (NilZero.int_of_string (generateRoomCode rnd))
    = Some (Qfloor (roundDouble (100000 + roundDouble (rnd * 900000)))).
Proof.
  intros Hd H0 H1.
  pose proof (generated_code_range rnd H0 (double_below_one rnd Hd H0 H1)) as Hn.
  split; [exact Hn|]. unfold generateRoomCode.
  set (n := Qfloor (roundDouble (100000 + roundDouble (rnd * 900000)))) in *.
  assert (H5 : 1 <= n / 100000 <= 9) by (Z.div_mod_to_equations; lia).
  split.
  - rewrite (to_int_sixDigits n Hn). unfold sixDigits.
    assert (forall d5 l, 1 <= d5 <= 9 ->
              NilZero.string_of_int (Decimal.Pos (digit d5 l))
              = NilEmpty.string_of_uint (digit d5 l)) as Hstr.
    { intros d5 l Hd5. digit_cases d5 Hd5; reflexivity. }
    rewrite (Hstr _ _ H5).
    rewrite !length_digit; [reflexivity|..]; try (pose proof (Z.mod_pos_bound (n / 10000) 10); pose proof (Z.mod_pos_bound (n / 1000) 10); pose proof (Z.mod_pos_bound (n / 100) 10); pose proof (Z.mod_pos_bound (n / 10) 10); pose proof (Z.mod_pos_bound n 10); lia).
  - rewrite NilZero.isi.
    + cbn. by rewrite DecimalZ.of_to.
    + rewrite (to_int_sixDigits n Hn). unfold sixDigits.
      generalize (n / 100000) H5. intros d5 Hd5.
      digit_cases d5 Hd5; discriminate.
    + rewrite (to_int_sixDigits n Hn). discriminate.
Qed.

Lemma generateRoomCode_six_digits_witness :
  String.length (generateRoomCode (150119987579 # 4503599627370496)) = 6%nat.
Proof.
  refine (proj1 (proj2
    (generateRoomCode_six_digits (150119987579 # 4503599627370496) _ _ _))).
  - vm_compute. reflexivity.
  - discriminate.
  - reflexivity.
Defined.

(** The rounding shows in the code: at this draw the exact value of
    [100000 + rnd * 900000] lies just below 100030, and the doubles give
    100030. *)
Example rounding_reaches_the_next_code :
  let rnd := (150119987579 # 4503599627370496)%Q in
  Qfloor (100000 + rnd * 900000) = 100029 /\ generateRoomCode rnd = "100030".
Proof. split; vm_compute; reflexivity. Qed.

(** ** Rejoining within the short grace period *)

(** X23. Disconnect, then [join-room] under the same name from another
    socket, then the departure check the disconnect had set: the join
    puts the new socket id into the user's entry without changing the
    number of users, and the check, whenever it fires on that state,
    removes nobody, emits nothing and sets no timer. *)
Theorem rejoin_within_short_grace
    (socketId newSocketId code : string) (s : Server) (sock : Socket)
    (ref : Ref) (room : Room) (userIndex : nat) (user : User) :
  sockets s !! socketId = Some sock ->
  currentRoom sock = Some code ->
  getRoom s code = Some (ref, room) ->
  findIndex (fun u => bool_decide (id u = socketId)) (users room) = Some userIndex ->
  users room !! userIndex = Some user ->
  newSocketId <> socketId ->
  (clock s + 20000, DepartureCheck ref code userIndex (name user) socketId)
    ∈ timers (joinRoom newSocketId code (name user) (disconnect socketId s)) /\
  fire (DepartureCheck ref code userIndex (name user) socketId)
       (joinRoom newSocketId code (name user) (disconnect socketId s))
    = joinRoom newSocketId code (name user) (disconnect socketId s) /\
  exists room',
    getRoom (joinRoom newSocketId code (name user) (disconnect socketId s)) code
      = Some (ref, room') /\
    mkUser newSocketId (name user) ∈ users room' /\
    length (users room') = length (users room).
Proof.
  intros Hsock Hcur Hget Hfind Huser Hne.
  destruct (disconnect_keeps_store socketId s) as [Hrooms Hheap].
  assert (Hget1 : getRoom (disconnect socketId s) code = Some (ref, room)).
  { apply getRoom_Some. rewrite Hrooms, Hheap. by apply getRoom_Some. }
  assert (Htimers : timers (disconnect socketId s)
                    = timers s ++ [(clock s + 20000,
                                    DepartureCheck ref code userIndex (name user) socketId)]).
  { unfold disconnect. rewrite Hsock, Hcur.
    assert (getRoom (set_sockets (delete socketId) s) code = Some (ref, room)) as ->
      by exact Hget.
    by rewrite Hfind, Huser. }
  split; [|split].
  - unfold joinRoom. rewrite Hget1. cbn. rewrite Htimers.
    apply elem_of_app. right. by apply list_elem_of_singleton.
  - cbn. by eapply rejoin_cancels_departure.
  - pose proof (joinRoom_getRoom newSocketId code (name user) _ ref room Hget1) as Hjoined.
    eexists. split; [exact Hjoined|]. cbn.
    assert (Hin : user ∈ users room) by (apply list_elem_of_lookup; eauto).
    destruct (findIndex (fun u => bool_decide (name u = name user)) (users room))
      as [i|] eqn:Hname.
    + apply findIndex_Some in Hname as (old & Hold & Hsame & _).
      apply bool_decide_eq_true in Hsame.
      rewrite length_alter. split; [|reflexivity].
      rewrite (alter_as_insert _ _ _ _ Hold), Hsame.
      apply list_elem_of_insert. by eapply lookup_lt_Some.
    + pose proof (proj1 (findIndex_None _ _) Hname user Hin) as Hfalse.
      apply bool_decide_eq_false in Hfalse. by destruct Hfalse.
Qed.

Lemma rejoin_within_short_grace_witness :
  fire (DepartureCheck 0 "550000" 1 "B" "s2")
       (joinRoom "s4" "550000" "B" (disconnect "s2" lobbyServer))
    = joinRoom "s4" "550000" "B" (disconnect "s2" lobbyServer).
Proof.
  refine (proj1 (proj2 (rejoin_within_short_grace "s2" "s4" "550000" lobbyServer
                          (mkSocket (Some "550000") {["550000"]}) 0%nat lobbyRoom 1%nat
                          (mkUser "s2" "B") _ _ _ _ _ _))).
  - vm_compute. reflexivity.
  - reflexivity.
  - vm_compute. reflexivity.
  - reflexivity.
  - reflexivity.
  - discriminate.
Defined.

(** ** Instances of the unconditional properties *)

Lemma createRoom_then_checkRoom_witness :
  checkRoom "550000" (createRoom (1 # 4) VNull lobbyServer).1
    = checkRoom "550000" lobbyServer.
Proof.
  refine (proj2 (createRoom_then_checkRoom (1 # 4) VNull lobbyServer) "550000" _).
  vm_compute. discriminate.
Defined.

Lemma reachable_states_well_formed_witness : NoDup (name <$> users lobbyRoom).
Proof.
  refine (proj1 (reachable_states_well_formed lobby) lobbyRoom _).
  assert (heap (run lobby initial).1 = [lobbyRoom]) as -> by (vm_compute; reflexivity).
  by apply list_elem_of_singleton.
Defined.

Lemma inputs_never_remove_witness :
  exists r',
    getRoom (handle (PostCreateRoom (1 # 4) VUndefined) lobbyServer).1 "550000"
    = Some (0%nat, r') /\
    (name <$> users lobbyRoom) `prefix_of` (name <$> users r') /\
    translationDirection r' = translationDirection lobbyRoom /\
    createdAt r' = createdAt lobbyRoom.
Proof.
  refine (proj1 (proj2 (inputs_never_remove (PostCreateRoom (1 # 4) VUndefined) lobbyServer))
            "550000" 0%nat lobbyRoom _ _).
  - vm_compute. reflexivity.
  - intros rnd direction [= <- <-]. vm_compute. discriminate.
Defined.

Lemma callbacks_never_add_witness : rooms idleAndBusy !! "222222" = Some 1%nat.
Proof.
  refine (proj1 (callbacks_never_add Sweep idleAndBusy) "222222" 1%nat _).
  vm_compute. reflexivity.
Defined.

